(** * Spine skeleton cache: frame recorder and registry

    A shallow embedding of [cocos/spine/skeleton-cache.ts] and the
    verification of its specification.

    Conventions of the embedding.
    - JavaScript objects that are shared by reference ([AnimationCache],
      [SkeletonCacheItemInfo]) live in a store ([World]) and are named by
      references; a method takes the reference of [this].
    - JavaScript objects used as dictionaries are finite maps over strings.
      Their keys are skeleton uuids, animation names and pool keys; none of
      them is taken to be the name of a property of [Object.prototype].  A
      [for ... in] loop visits the keys in the order of [map_to_list], not
      in the order of insertion.
    - Numbers that hold times are exact rationals ([Q]): the rounding of
      binary64 is not part of the model, so that the tick at which a sum of
      frame times reaches the cap may differ by one from the tick of the
      program.  The statements of the claims do not name that tick.  Frame
      indices are integers.
    - The pose engine ([spine.SkeletonInstance], a WebAssembly module) is not
      part of the file; it is the interface [SpineEngine]. *)

From Stdlib Require Import ZArith QArith Qround Lia Lqa Ascii String.
From stdpp Require Import base option list gmap strings fin_maps.

Local Open Scope Z_scope.

(** ** Values copied out of the engine *)

(** [class FrameBoneInfo] *)
Record FrameBoneInfo := {
  a : Q; b : Q; c : Q; d : Q; worldX : Q; worldY : Q
}.

(** [class SpineDrawItem]; [di_iCount] is its field [iCount]. *)
Record SpineDrawItem := {
  di_iCount : Z; blendMode : Z; textureID : Z
}.

(** [class SpineModel]; [vData] is the byte buffer, [iData] the 16-bit
    index buffer. *)
Record SpineModel := {
  vCount : Z; iCount : Z; vData : list Z; iData : list Z;
  meshes : list SpineDrawItem
}.

(** [interface AnimationFrame] *)
Record AnimationFrame := {
  model : SpineModel;
  boneInfos : list FrameBoneInfo
}.

(** An element of [spine.SkeletonData.animations]. *)
Record Animation := { name : string; duration : Q }.

(** [spine.SkeletonData], as far as the cache reads it. *)
Record SkeletonData := { animations : list Animation }.

(** The asset class [SkeletonData] of [./skeleton-data]:
    [getRuntimeData()] yields the runtime data or [null]. *)
Record SkeletonDataAsset := { getRuntimeData : option SkeletonData }.

(** ** Constants *)

Definition MaxCacheTime : Q := 30.
Definition FrameTime : Q := 1 / 60.

(** ** JavaScript primitives used by the file *)

(** [x < y] on numbers. *)
Definition Qlt_bool (x y : Q) : bool :=
  (Qnum x * Zpos (Qden y) <? Qnum y * Zpos (Qden x))%Z.

(** [x % y] on integral numbers; [None] is [NaN]. *)
Definition js_rem (x y : Z) : option Z :=
  if y =? 0 then None else Some (Z.rem x y).

(** An array with holes: [None] is an empty slot, read as [undefined]. *)
Definition JSArray (A : Type) := list (option A).

(** [arr[i]] for a number [i] ([None] is [NaN]). *)
Definition arr_get {A} (arr : JSArray A) (i : option Z) : option A :=
  match i with
  | Some z => if z <? 0 then None else mjoin (arr !! Z.to_nat z)
  | None => None
  end.

(** [arr[i] = v].  Past the end the array grows, the gap being holes.  A
    negative [i] names a property that is not an element: the elements stay
    as they are. *)
Definition arr_set {A} (arr : JSArray A) (i : Z) (v : A) : JSArray A :=
  if i <? 0 then arr
  else
    let n := Z.to_nat i in
    if (n <? length arr)%nat then <[n := Some v]> arr
    else arr ++ replicate (n - length arr) None ++ [Some v].

(** [arr.length = n] for [0 <= n]: truncates, or grows with holes. *)
Definition arr_set_length {A} (arr : JSArray A) (n : nat) : JSArray A :=
  take n arr ++ replicate (n - length arr) None.

(** [key.includes(sub)] *)
Fixpoint includes (key sub : string) : bool :=
  String.prefix sub key ||
  match key with
  | EmptyString => false
  | String _ key' => includes key' sub
  end.

(** ** The pose engine *)

(** The operations of [spine.SkeletonInstance] that the cache calls.
    [inst_updateAnimation] also yields the track entries for which the
    engine invoked the [complete] callback of the listener during the step,
    each given by its animation name ([None] for a null entry).
    [inst_updateRenderData] and [inst_bones] yield what the cache copies
    into a frame: the render buffers, and the bones of the skeleton. *)
Class SpineEngine := {
  SkeletonInstance : Type;
  initSkeleton : SkeletonData -> SkeletonInstance;
  inst_setSkin : SkeletonInstance -> string -> SkeletonInstance;
  inst_setAnimation : SkeletonInstance -> string -> SkeletonInstance;
  inst_updateAnimation :
    SkeletonInstance -> Q -> SkeletonInstance * list (option string);
  inst_updateRenderData : SkeletonInstance -> SkeletonInstance * SpineModel;
  inst_bones : SkeletonInstance -> list FrameBoneInfo
}.

(** References to [AnimationCache] and to [SkeletonCacheItemInfo] objects. *)
Abbreviation cref := nat (only parsing).
Abbreviation iref := nat (only parsing).

Section Model.

Context {engine : SpineEngine}.

(** ** [class AnimationCache]

    The field [_skeleton] is a handle into [_instance]: what the class
    reads through it, the bones, is read from [_instance] here.  The field
    [_state] is never assigned. *)
Record AnimationCache := {
  _instance : SkeletonInstance;
  _skeletonData : SkeletonData;
  _privateMode : bool;
  _curIndex : Z;
  _isCompleted : bool;
  _maxFrameIdex : Z;
  _frameIdx : Z;
  _inited : bool;
  _invalid : bool;
  _enableCacheAttachedInfo : bool;
  _skeletonInfo : option iref;
  _animationName : option string;
  isCompleted : bool;
  totalTime : Q;
  frames : JSArray AnimationFrame
}.

Definition set_instance (v : SkeletonInstance) (x : AnimationCache) :=
  {| _instance := v; _skeletonData := _skeletonData x;
     _privateMode := _privateMode x; _curIndex := _curIndex x;
     _isCompleted := _isCompleted x; _maxFrameIdex := _maxFrameIdex x;
     _frameIdx := _frameIdx x; _inited := _inited x; _invalid := _invalid x;
     _enableCacheAttachedInfo := _enableCacheAttachedInfo x;
     _skeletonInfo := _skeletonInfo x; _animationName := _animationName x;
     isCompleted := isCompleted x; totalTime := totalTime x;
     frames := frames x |}.

Definition set_privateMode (v : bool) (x : AnimationCache) :=
  {| _instance := _instance x; _skeletonData := _skeletonData x;
     _privateMode := v; _curIndex := _curIndex x;
     _isCompleted := _isCompleted x; _maxFrameIdex := _maxFrameIdex x;
     _frameIdx := _frameIdx x; _inited := _inited x; _invalid := _invalid x;
     _enableCacheAttachedInfo := _enableCacheAttachedInfo x;
     _skeletonInfo := _skeletonInfo x; _animationName := _animationName x;
     isCompleted := isCompleted x; totalTime := totalTime x;
     frames := frames x |}.

Definition set_curIndex (v : Z) (x : AnimationCache) :=
  {| _instance := _instance x; _skeletonData := _skeletonData x;
     _privateMode := _privateMode x; _curIndex := v;
     _isCompleted := _isCompleted x; _maxFrameIdex := _maxFrameIdex x;
     _frameIdx := _frameIdx x; _inited := _inited x; _invalid := _invalid x;
     _enableCacheAttachedInfo := _enableCacheAttachedInfo x;
     _skeletonInfo := _skeletonInfo x; _animationName := _animationName x;
     isCompleted := isCompleted x; totalTime := totalTime x;
     frames := frames x |}.

Definition set__isCompleted (v : bool) (x : AnimationCache) :=
  {| _instance := _instance x; _skeletonData := _skeletonData x;
     _privateMode := _privateMode x; _curIndex := _curIndex x;
     _isCompleted := v; _maxFrameIdex := _maxFrameIdex x;
     _frameIdx := _frameIdx x; _inited := _inited x; _invalid := _invalid x;
     _enableCacheAttachedInfo := _enableCacheAttachedInfo x;
     _skeletonInfo := _skeletonInfo x; _animationName := _animationName x;
     isCompleted := isCompleted x; totalTime := totalTime x;
     frames := frames x |}.

Definition set_maxFrameIdex (v : Z) (x : AnimationCache) :=
  {| _instance := _instance x; _skeletonData := _skeletonData x;
     _privateMode := _privateMode x; _curIndex := _curIndex x;
     _isCompleted := _isCompleted x; _maxFrameIdex := v;
     _frameIdx := _frameIdx x; _inited := _inited x; _invalid := _invalid x;
     _enableCacheAttachedInfo := _enableCacheAttachedInfo x;
     _skeletonInfo := _skeletonInfo x; _animationName := _animationName x;
     isCompleted := isCompleted x; totalTime := totalTime x;
     frames := frames x |}.

Definition set_frameIdx (v : Z) (x : AnimationCache) :=
  {| _instance := _instance x; _skeletonData := _skeletonData x;
     _privateMode := _privateMode x; _curIndex := _curIndex x;
     _isCompleted := _isCompleted x; _maxFrameIdex := _maxFrameIdex x;
     _frameIdx := v; _inited := _inited x; _invalid := _invalid x;
     _enableCacheAttachedInfo := _enableCacheAttachedInfo x;
     _skeletonInfo := _skeletonInfo x; _animationName := _animationName x;
     isCompleted := isCompleted x; totalTime := totalTime x;
     frames := frames x |}.

Definition set_inited (v : bool) (x : AnimationCache) :=
  {| _instance := _instance x; _skeletonData := _skeletonData x;
     _privateMode := _privateMode x; _curIndex := _curIndex x;
     _isCompleted := _isCompleted x; _maxFrameIdex := _maxFrameIdex x;
     _frameIdx := _frameIdx x; _inited := v; _invalid := _invalid x;
     _enableCacheAttachedInfo := _enableCacheAttachedInfo x;
     _skeletonInfo := _skeletonInfo x; _animationName := _animationName x;
     isCompleted := isCompleted x; totalTime := totalTime x;
     frames := frames x |}.

Definition set_invalid (v : bool) (x : AnimationCache) :=
  {| _instance := _instance x; _skeletonData := _skeletonData x;
     _privateMode := _privateMode x; _curIndex := _curIndex x;
     _isCompleted := _isCompleted x; _maxFrameIdex := _maxFrameIdex x;
     _frameIdx := _frameIdx x; _inited := _inited x; _invalid := v;
     _enableCacheAttachedInfo := _enableCacheAttachedInfo x;
     _skeletonInfo := _skeletonInfo x; _animationName := _animationName x;
     isCompleted := isCompleted x; totalTime := totalTime x;
     frames := frames x |}.

Definition set_enableCacheAttachedInfo (v : bool) (x : AnimationCache) :=
  {| _instance := _instance x; _skeletonData := _skeletonData x;
     _privateMode := _privateMode x; _curIndex := _curIndex x;
     _isCompleted := _isCompleted x; _maxFrameIdex := _maxFrameIdex x;
     _frameIdx := _frameIdx x; _inited := _inited x; _invalid := _invalid x;
     _enableCacheAttachedInfo := v;
     _skeletonInfo := _skeletonInfo x; _animationName := _animationName x;
     isCompleted := isCompleted x; totalTime := totalTime x;
     frames := frames x |}.

Definition set_skeletonInfo (v : option iref) (x : AnimationCache) :=
  {| _instance := _instance x; _skeletonData := _skeletonData x;
     _privateMode := _privateMode x; _curIndex := _curIndex x;
     _isCompleted := _isCompleted x; _maxFrameIdex := _maxFrameIdex x;
     _frameIdx := _frameIdx x; _inited := _inited x; _invalid := _invalid x;
     _enableCacheAttachedInfo := _enableCacheAttachedInfo x;
     _skeletonInfo := v; _animationName := _animationName x;
     isCompleted := isCompleted x; totalTime := totalTime x;
     frames := frames x |}.

Definition set_animationName (v : option string) (x : AnimationCache) :=
  {| _instance := _instance x; _skeletonData := _skeletonData x;
     _privateMode := _privateMode x; _curIndex := _curIndex x;
     _isCompleted := _isCompleted x; _maxFrameIdex := _maxFrameIdex x;
     _frameIdx := _frameIdx x; _inited := _inited x; _invalid := _invalid x;
     _enableCacheAttachedInfo := _enableCacheAttachedInfo x;
     _skeletonInfo := _skeletonInfo x; _animationName := v;
     isCompleted := isCompleted x; totalTime := totalTime x;
     frames := frames x |}.

Definition set_isCompleted (v : bool) (x : AnimationCache) :=
  {| _instance := _instance x; _skeletonData := _skeletonData x;
     _privateMode := _privateMode x; _curIndex := _curIndex x;
     _isCompleted := _isCompleted x; _maxFrameIdex := _maxFrameIdex x;
     _frameIdx := _frameIdx x; _inited := _inited x; _invalid := _invalid x;
     _enableCacheAttachedInfo := _enableCacheAttachedInfo x;
     _skeletonInfo := _skeletonInfo x; _animationName := _animationName x;
     isCompleted := v; totalTime := totalTime x;
     frames := frames x |}.

Definition set_totalTime (v : Q) (x : AnimationCache) :=
  {| _instance := _instance x; _skeletonData := _skeletonData x;
     _privateMode := _privateMode x; _curIndex := _curIndex x;
     _isCompleted := _isCompleted x; _maxFrameIdex := _maxFrameIdex x;
     _frameIdx := _frameIdx x; _inited := _inited x; _invalid := _invalid x;
     _enableCacheAttachedInfo := _enableCacheAttachedInfo x;
     _skeletonInfo := _skeletonInfo x; _animationName := _animationName x;
     isCompleted := isCompleted x; totalTime := v;
     frames := frames x |}.

Definition set_frames (v : JSArray AnimationFrame) (x : AnimationCache) :=
  {| _instance := _instance x; _skeletonData := _skeletonData x;
     _privateMode := _privateMode x; _curIndex := _curIndex x;
     _isCompleted := _isCompleted x; _maxFrameIdex := _maxFrameIdex x;
     _frameIdx := _frameIdx x; _inited := _inited x; _invalid := _invalid x;
     _enableCacheAttachedInfo := _enableCacheAttachedInfo x;
     _skeletonInfo := _skeletonInfo x; _animationName := _animationName x;
     isCompleted := isCompleted x; totalTime := totalTime x;
     frames := v |}.

(** ** [interface SkeletonCacheItemInfo]

    [skeleton] is [new spine.Skeleton(skeletonData)], kept as the data it was
    built from; [clipper] and [state] are engine objects that the file never
    reads, they carry no content here.  [listener] is the [complete] field
    of the [TrackEntryListeners] object: [Some r] when it holds the handler
    that [r.bind] installed, [None] when it is unset or [null]. *)
Record SkeletonCacheItemInfo := {
  skeleton : SkeletonData;
  clipper : unit;
  state : unit;
  listener : option cref;
  curAnimationCache : option cref;
  animationsCache : gmap string cref
}.

Definition set_listener (v : option cref) (x : SkeletonCacheItemInfo) :=
  {| skeleton := skeleton x; clipper := clipper x; state := state x;
     listener := v; curAnimationCache := curAnimationCache x;
     animationsCache := animationsCache x |}.

Definition set_curAnimationCache (v : option cref) (x : SkeletonCacheItemInfo) :=
  {| skeleton := skeleton x; clipper := clipper x; state := state x;
     listener := listener x; curAnimationCache := v;
     animationsCache := animationsCache x |}.

Definition set_animationsCache (v : gmap string cref) (x : SkeletonCacheItemInfo) :=
  {| skeleton := skeleton x; clipper := clipper x; state := state x;
     listener := listener x; curAnimationCache := curAnimationCache x;
     animationsCache := v |}.

(** ** The store

    [warnings] are the messages passed to [warn], latest first;
    [destroyed] the recorders whose engine instance was passed to
    [destroySpineInstance], latest first; [instances] counts the calls of
    [new spine.SkeletonInstance()]. *)
Record World := {
  caches : gmap cref AnimationCache;
  infos : gmap iref SkeletonCacheItemInfo;
  warnings : list string;
  destroyed : list cref;
  instances : nat
}.

Definition set_caches (v : gmap cref AnimationCache) (w : World) :=
  {| caches := v; infos := infos w; warnings := warnings w;
     destroyed := destroyed w; instances := instances w |}.

Definition set_infos (v : gmap iref SkeletonCacheItemInfo) (w : World) :=
  {| caches := caches w; infos := v; warnings := warnings w;
     destroyed := destroyed w; instances := instances w |}.

Definition set_warnings (v : list string) (w : World) :=
  {| caches := caches w; infos := infos w; warnings := v;
     destroyed := destroyed w; instances := instances w |}.

Definition set_destroyed (v : list cref) (w : World) :=
  {| caches := caches w; infos := infos w; warnings := warnings w;
     destroyed := v; instances := instances w |}.

Definition set_instances (v : nat) (w : World) :=
  {| caches := caches w; infos := infos w; warnings := warnings w;
     destroyed := destroyed w; instances := v |}.

(** ** Outcomes of a call

    [Done] is a normal return.  [Throw] is a JavaScript exception.
    [Dangling] is a reference without an object, which no JavaScript heap
    has.  [OutOfFuel] stands for a recursion deeper than the fuel given. *)
Inductive JSError := TypeError | RangeError.

Inductive Res (A : Type) :=
| Done (x : A) (w : World)
| Throw (e : JSError)
| Dangling
| OutOfFuel.

Arguments Done {A} x w.
Arguments Throw {A} e.
Arguments Dangling {A}.
Arguments OutOfFuel {A}.

Definition M (A : Type) : Type := World -> Res A.

Definition ret {A} (x : A) : M A := fun w => Done x w.

Definition bind {A B} (m : M A) (k : A -> M B) : M B :=
  fun w =>
    match m w with
    | Done x w' => k x w'
    | Throw e => Throw e
    | Dangling => Dangling
    | OutOfFuel => OutOfFuel
    end.

Definition throw {A} (e : JSError) : M A := fun _ => Throw e.

Notation "'let*' x ':=' m 'in' k" := (bind m (fun x => k))
  (at level 10, x name, m at level 100, k at level 200).
Notation "m ;; k" := (bind m (fun _ => k))
  (at level 100, k at level 200, right associativity).

Definition getCache (r : cref) : M AnimationCache :=
  fun w => match caches w !! r with Some x => Done x w | None => Dangling end.

Definition putCache (r : cref) (x : AnimationCache) : M unit :=
  fun w => Done tt (set_caches (<[r := x]> (caches w)) w).

Definition modCache (r : cref) (f : AnimationCache -> AnimationCache) : M unit :=
  let* x := getCache r in putCache r (f x).

Definition getInfo (i : iref) : M SkeletonCacheItemInfo :=
  fun w => match infos w !! i with Some x => Done x w | None => Dangling end.

Definition putInfo (i : iref) (x : SkeletonCacheItemInfo) : M unit :=
  fun w => Done tt (set_infos (<[i := x]> (infos w)) w).

Definition modInfo (i : iref)
    (f : SkeletonCacheItemInfo -> SkeletonCacheItemInfo) : M unit :=
  let* x := getInfo i in putInfo i (f x).

(** [warn(msg)] of [core/platform/debug]. *)
Definition warn (msg : string) : M unit :=
  fun w => Done tt (set_warnings (msg :: warnings w) w).

(** ** Methods of [AnimationCache] *)

(** [constructor (data)]: the field initialisers, then the body. *)
Definition new_AnimationCache (data : SkeletonData) : M cref :=
  fun w =>
    let r := fresh (dom (caches w)) in
    let x := {| _instance := initSkeleton data; _skeletonData := data;
                _privateMode := false; _curIndex := -1;
                _isCompleted := false; _maxFrameIdex := 0; _frameIdx := -1;
                _inited := false; _invalid := true;
                _enableCacheAttachedInfo := false; _skeletonInfo := None;
                _animationName := None; isCompleted := false;
                totalTime := 0; frames := [] |} in
    Done r (set_instances (S (instances w))
              (set_caches (<[r := x]> (caches w)) w)).

Definition init (this : cref) (skeletonInfo : iref) (animationName : string)
    : M unit :=
  modCache this (fun x =>
    set_skeletonInfo (Some skeletonInfo)
      (set_animationName (Some animationName) (set_inited true x))).

Definition setSkin (this : cref) (skinName : string) : M unit :=
  modCache this (fun x => set_instance (inst_setSkin (_instance x) skinName) x).

(** The [forEach] of [setAnimation]: the last element of that name. *)
Definition find_animation (l : list Animation) (animationName : string)
    : option Animation :=
  fold_left (fun animation element =>
               if String.eqb (name element) animationName
               then Some element else animation) l None.

Definition setAnimation (this : cref) (animationName : string) : M unit :=
  let* x := getCache this in
  match find_animation (animations (_skeletonData x)) animationName with
  | None =>
      warn ("find no animation named " +:+ animationName +:+ " !!!")
  | Some animation =>
      let m := Qfloor (duration animation / FrameTime) in
      let m := if m <=? 0 then 1 else m in
      putCache this
        (set_instance (inst_setAnimation (_instance x) animationName)
           (set_maxFrameIdex m x))
  end.

Definition needToUpdate (x : AnimationCache) (toFrameIdx : option Z) : bool :=
  negb (isCompleted x) && Qlt_bool (totalTime x) MaxCacheTime &&
  match toFrameIdx with
  | None => true
  | Some t => _frameIdx x <? t
  end.

Definition getFrame (x : AnimationCache) (frameIdx : Z)
    : option AnimationFrame :=
  let index := js_rem frameIdx (_maxFrameIdex x) in
  arr_get (frames x) index.

Definition invalidAnimationFrames (this : cref) : M unit :=
  modCache this (fun x =>
    set_frames [] (set__isCompleted false (set_curIndex (-1) x))).

(** The private [updateRenderData (index, model)]: the buffers of the engine
    and the bones of the skeleton are copied into a new frame, stored at
    [index].  The byte counts of the copy, which come from the vertex
    format, are not modelled: the buffers are copied whole. *)
Definition updateRenderData (index : Z) (mdl : SpineModel)
    (x : AnimationCache) : AnimationCache :=
  let modelData :=
    {| vCount := vCount mdl; iCount := iCount mdl;
       vData := vData mdl; iData := iData mdl;
       meshes := map (fun mesh =>
                        {| di_iCount := di_iCount mesh;
                           blendMode := blendMode mesh;
                           textureID := textureID mesh |}) (meshes mdl) |} in
  let boneInfosArray :=
    map (fun bone =>
           {| a := a bone; b := b bone; c := c bone; d := d bone;
              worldX := worldX bone; worldY := worldY bone |})
        (inst_bones (_instance x)) in
  set_frames
    (arr_set (frames x) index
       {| model := modelData; boneInfos := boneInfosArray |}) x.

(** The handler that [bind] installs, called with a track entry. *)
Definition completeHandle (this : cref) (entry : option string)
    (w : World) : World :=
  match entry, caches w !! this with
  | Some n, Some x =>
      if decide (Some n = _animationName x)
      then set_caches (<[this := set_isCompleted true x]> (caches w)) w
      else w
  | _, _ => w
  end.

(** The engine calls the [complete] handler of the listener of a context,
    when there is one. *)
Definition fire_complete (info : option iref) (w : World)
    (entry : option string) : World :=
  match info with
  | Some i =>
      match infos w !! i with
      | Some inf =>
          match listener inf with
          | Some h => completeHandle h entry w
          | None => w
          end
      | None => w
      end
  | None => w
  end.

Definition dispatch (info : option iref) (entries : list (option string))
    : M unit :=
  fun w => Done tt (fold_left (fire_complete info) entries w).

Definition bind_listener (this : cref) (info : iref) : M unit :=
  modInfo info (set_listener (Some this)).

Definition unbind (info : iref) : M unit :=
  modInfo info (set_listener None).

Definition invalidAllFrame (this : cref) : M unit :=
  modCache this (fun x => set_invalid true (set_isCompleted false x)).

(** The body of the [do ... while] of [updateToFrame]. *)
Definition bake_frame (this : cref) : M unit :=
  let* x := getCache this in
  let x := set_frameIdx (_frameIdx x + 1) x in
  let x := set_totalTime (totalTime x + FrameTime)%Q x in
  let step := inst_updateAnimation (_instance x) FrameTime in
  putCache this (set_instance (fst step) x) ;;
  dispatch (_skeletonInfo x) (snd step) ;;
  let* x := getCache this in
  let rd := inst_updateRenderData (_instance x) in
  let x := updateRenderData (_frameIdx x) (snd rd) (set_instance (fst rd) x) in
  putCache this
    (if _maxFrameIdex x <=? _frameIdx x then set_isCompleted true x else x).

(** The [do ... while] loop, with a bound on its iterations. *)
Fixpoint bake_loop (n : nat) (this : cref) (frameIdx : option Z) : M unit :=
  match n with
  | O => fun _ => OutOfFuel
  | S n' =>
      bake_frame this ;;
      let* x := getCache this in
      if needToUpdate x frameIdx then bake_loop n' this frameIdx else ret tt
  end.

(** Every iteration adds [FrameTime] to [totalTime] and the loop goes on
    only below [MaxCacheTime]: this many iterations are enough. *)
Definition ticks_left (x : AnimationCache) : nat :=
  Z.to_nat (Qceiling ((MaxCacheTime - totalTime x) / FrameTime)).

(** [begin], given the [updateToFrame] that it calls on the previous
    recorder.  A recorder without a context has no listener to [bind] to,
    which is a [TypeError]; the engine is taken to refuse a [null] animation
    name in the same way. *)
Definition begin_with (updateToFrame : cref -> option Z -> M unit)
    (this : cref) : M unit :=
  let* x := getCache this in
  if negb (_invalid x) then ret tt
  else
    let skeletonInfo := _skeletonInfo x in
    let* preAnimationCache :=
      match skeletonInfo with
      | None => ret None
      | Some i => let* inf := getInfo i in ret (curAnimationCache inf)
      end in
    match preAnimationCache with
    | Some pre =>
        if decide (pre = this) then ret tt
        else if _privateMode x then invalidAllFrame pre
        else updateToFrame pre (Some 0)
    | None => ret tt
    end ;;
    let* x := getCache this in
    match _animationName x, skeletonInfo with
    | Some animationName, Some i =>
        putCache this
          (set_instance (inst_setAnimation (_instance x) animationName) x) ;;
        bind_listener this i ;;
        modInfo i (set_curAnimationCache (Some this)) ;;
        modCache this (fun x =>
          set_invalid false
            (set_totalTime 0 (set_isCompleted false (set_frameIdx (-1) x))))
    | _, _ => throw TypeError
    end.

(** [updateToFrame (frameIdx)]; [depth] bounds the nesting of the calls
    through [begin], and [frameIdx = None] is a call without a target. *)
Fixpoint updateToFrame (depth : nat) (this : cref) (frameIdx : option Z)
    : M unit :=
  match depth with
  | O => fun _ => OutOfFuel
  | S depth' =>
      let* x := getCache this in
      if negb (_inited x) then ret tt
      else
        begin_with (updateToFrame depth') this ;;
        let* x := getCache this in
        if negb (needToUpdate x frameIdx) then ret tt
        else bake_loop (ticks_left x) this frameIdx
  end.

Definition begin (depth : nat) (this : cref) : M unit :=
  begin_with (updateToFrame depth) this.

(** [end ()] *)
Definition end_ (this : cref) : M unit :=
  let* x := getCache this in
  if negb (needToUpdate x None) then
    match _skeletonInfo x with
    | None => throw TypeError
    | Some i =>
        modInfo i (set_curAnimationCache None) ;;
        (if _frameIdx x + 1 <? 0 then throw RangeError
         else modCache this (fun x =>
                set_frames
                  (arr_set_length (frames x) (Z.to_nat (_frameIdx x + 1))) x)) ;;
        modCache this (set_isCompleted true) ;;
        unbind i
    end
  else ret tt.

Definition isInited (x : AnimationCache) : bool := _inited x.

Definition isInvalid (x : AnimationCache) : bool := _invalid x.

Definition enableCacheAttachedInfo (this : cref) : M unit :=
  let* x := getCache this in
  if negb (_enableCacheAttachedInfo x) then
    putCache this (set_enableCacheAttachedInfo true x) ;;
    invalidAllFrame this
  else ret tt.

Definition clear (this : cref) : M unit :=
  modCache this (set_inited false) ;;
  invalidAllFrame this.

Definition destory (this : cref) : M unit :=
  getCache this ;;
  fun w => Done tt (set_destroyed (this :: destroyed w) w).

(** ** [class SkeletonCache]

    [sc_privateMode] is the field [_privateMode] of the registry. *)
Record SkeletonCache := {
  sc_privateMode : bool;
  _skeletonCache : gmap string iref;
  _animationPool : gmap string cref
}.

Definition new_SkeletonCache : SkeletonCache :=
  {| sc_privateMode := false; _animationPool := ∅; _skeletonCache := ∅ |}.

Definition set_animationPool (v : gmap string cref) (sc : SkeletonCache) :=
  {| sc_privateMode := sc_privateMode sc;
     _skeletonCache := _skeletonCache sc; _animationPool := v |}.

Definition set_skeletonCache (v : gmap string iref) (sc : SkeletonCache) :=
  {| sc_privateMode := sc_privateMode sc;
     _skeletonCache := v; _animationPool := _animationPool sc |}.

Definition enablePrivateMode (sc : SkeletonCache) : SkeletonCache :=
  {| sc_privateMode := true;
     _skeletonCache := _skeletonCache sc;
     _animationPool := _animationPool sc |}.

Definition clear_registry (sc : SkeletonCache) : SkeletonCache :=
  {| sc_privateMode := sc_privateMode sc;
     _skeletonCache := ∅; _animationPool := ∅ |}.

(** A [for ... in] loop over a dictionary, threading a value through the
    iterations.  The keys come in the order of [map_to_list]. *)
Fixpoint foldM {A B} (f : B -> A -> M B) (l : list A) (acc : B) : M B :=
  match l with
  | [] => ret acc
  | x :: l' => let* acc' := f acc x in foldM f l' acc'
  end.

Definition for_in {V B} (m : gmap string V) (f : B -> string -> V -> M B)
    (acc : B) : M B :=
  foldM (fun acc kv => f acc (fst kv) (snd kv)) (map_to_list m) acc.

Definition invalidAnimationCache (sc : SkeletonCache) (uuid : string)
    : M unit :=
  match _skeletonCache sc !! uuid with
  | None => ret tt
  | Some i =>
      let* skeletonInfo := getInfo i in
      for_in (animationsCache skeletonInfo)
        (fun _ _ animationCache => invalidAllFrame animationCache) tt
  end.

(** The template literal of the pool keys. *)
Definition poolKey (uuid animationName : string) : string :=
  uuid +:+ "#" +:+ animationName.

Definition removeSkeleton (sc : SkeletonCache) (uuid : string)
    : M SkeletonCache :=
  match _skeletonCache sc !! uuid with
  | None => ret sc
  | Some i =>
      let* skeletonInfo := getInfo i in
      let* pool :=
        for_in (animationsCache skeletonInfo)
          (fun pool aniKey animationCache =>
             let pool := <[poolKey uuid aniKey := animationCache]> pool in
             clear animationCache ;;
             ret pool)
          (_animationPool sc) in
      ret (set_skeletonCache (delete uuid (_skeletonCache sc))
             (set_animationPool pool sc))
  end.

Definition getSkeletonCache (sc : SkeletonCache) (uuid : string)
    (skeletonData : SkeletonData) : M (iref * SkeletonCache) :=
  match _skeletonCache sc !! uuid with
  | Some i => ret (i, sc)
  | None =>
      fun w =>
        let i := fresh (dom (infos w)) in
        let skeletonInfo :=
          {| skeleton := skeletonData; clipper := tt; state := tt;
             listener := None; animationsCache := ∅;
             curAnimationCache := None |} in
        Done (i, set_skeletonCache (<[uuid := i]> (_skeletonCache sc)) sc)
             (set_infos (<[i := skeletonInfo]> (infos w)) w)
  end.

Definition getAnimationCache (sc : SkeletonCache) (uuid animationName : string)
    : option cref :=
  _animationPool sc !! poolKey uuid animationName.

(** [initAnimationCache (uuid, data, animationName)]; [None] is [null]. *)
Definition initAnimationCache (sc : SkeletonCache) (uuid : string)
    (data : SkeletonDataAsset) (animationName : string)
    : M (option cref * SkeletonCache) :=
  match getRuntimeData data with
  | None => ret (None, sc)
  | Some spData =>
      match _skeletonCache sc !! uuid with
      | None => ret (None, sc)
      | Some i =>
          let* skeletonInfo := getInfo i in
          let* found :=
            match animationsCache skeletonInfo !! animationName with
            | Some animationCache => ret (animationCache, sc)
            | None =>
                let* made :=
                  match _animationPool sc !! poolKey uuid animationName with
                  | Some animationCache =>
                      ret (animationCache,
                           set_animationPool
                             (delete (poolKey uuid animationName)
                                (_animationPool sc)) sc)
                  | None =>
                      let* animationCache := new_AnimationCache spData in
                      modCache animationCache
                        (set_privateMode (sc_privateMode sc)) ;;
                      ret (animationCache, sc)
                  end in
                init (fst made) i animationName ;;
                modInfo i (fun inf =>
                  set_animationsCache
                    (<[animationName := fst made]> (animationsCache inf)) inf) ;;
                ret made
            end in
          init (fst found) i animationName ;;
          setAnimation (fst found) animationName ;;
          ret (Some (fst found), snd found)
      end
  end.

(** [destroyCachedAnimations (uuid?)]; [None] is a call without argument.
    The empty string is falsy, as is [undefined]. *)
Definition destroyCachedAnimations (sc : SkeletonCache) (uuid : option string)
    : M SkeletonCache :=
  let animationPool := _animationPool sc in
  let* pool :=
    match uuid with
    | Some (String _ _ as uuid) =>
        for_in animationPool
          (fun pool key animationCache =>
             if includes key uuid then
               destory animationCache ;;
               ret (delete key pool)
             else ret pool)
          animationPool
    | _ =>
        for_in animationPool
          (fun pool key animationCache =>
             destory animationCache ;;
             ret (delete key pool))
          animationPool
    end in
  ret (set_animationPool pool sc).

End Model.

Arguments Done {engine A} x w.
Arguments Throw {engine A} e.
Arguments Dangling {engine A}.
Arguments OutOfFuel {engine A}.

Notation "'let*' x ':=' m 'in' k" := (bind m (fun x => k))
  (at level 10, x name, m at level 100, k at level 200).
Notation "m ;; k" := (bind m (fun _ => k))
  (at level 100, k at level 200, right associativity).

(** ** A pose engine that keeps books

    The engine is outside the file; the examples run the cache on an engine
    that records which animation it plays and how many steps it has taken.
    Its render data carries the step count, and it never calls the
    [complete] handler. *)
Record BookInstance := {
  bk_animation : option string;
  bk_skin : option string;
  bk_steps : Z
}.

#[global] Instance book_engine : SpineEngine := {|
  SkeletonInstance := BookInstance;
  initSkeleton _ :=
    {| bk_animation := None; bk_skin := None; bk_steps := 0 |};
  inst_setSkin i s :=
    {| bk_animation := bk_animation i; bk_skin := Some s;
       bk_steps := bk_steps i |};
  inst_setAnimation i s :=
    {| bk_animation := Some s; bk_skin := bk_skin i; bk_steps := 0 |};
  inst_updateAnimation i _ :=
    ({| bk_animation := bk_animation i; bk_skin := bk_skin i;
        bk_steps := bk_steps i + 1 |}, []);
  inst_updateRenderData i :=
    (i, {| vCount := bk_steps i; iCount := 0; vData := []; iData := [];
           meshes := [] |});
  inst_bones _ := []
|}.

Definition empty_world : World :=
  {| caches := ∅; infos := ∅; warnings := []; destroyed := [];
     instances := 0 |}.

(** The skeleton of the scenarios: "walk" lasts one second, "run" half a
    second, "idle" forty seconds. *)
Definition hero_data : SkeletonData :=
  {| animations :=
       [ {| name := "walk"; duration := 1 |};
         {| name := "run"; duration := 1 # 2 |};
         {| name := "idle"; duration := 40 |} ] |}.

Definition hero_asset : SkeletonDataAsset :=
  {| getRuntimeData := Some hero_data |}.

(** ** The states of the scenarios *)

(** A recorder as [initAnimationCache] leaves it, for an animation that the
    skeleton data has. *)
Definition recorder (animationName : string) (maxFrameIdex : Z)
    (privateMode : bool) : AnimationCache :=
  {| _instance := {| bk_animation := Some animationName; bk_skin := None;
                     bk_steps := 0 |};
     _skeletonData := hero_data;
     _privateMode := privateMode;
     _curIndex := -1;
     _isCompleted := false;
     _maxFrameIdex := maxFrameIdex;
     _frameIdx := -1;
     _inited := true;
     _invalid := true;
     _enableCacheAttachedInfo := false;
     _skeletonInfo := Some 0%nat;
     _animationName := Some animationName;
     isCompleted := false;
     totalTime := 0;
     frames := [] |}.

(** Skeleton "hero" with the recorders of "walk" (0), "run" (1) and
    "idle" (2), none of them active. *)
Definition hero_info : SkeletonCacheItemInfo :=
  {| skeleton := hero_data; clipper := tt; state := tt;
     listener := None; curAnimationCache := None;
     animationsCache :=
       {[ "walk"%string := 0%nat; "run"%string := 1%nat;
          "idle"%string := 2%nat ]} |}.

Definition hero_world (privateMode : bool) : World :=
  {| caches := {[ 0%nat := recorder "walk" 60 privateMode;
                  1%nat := recorder "run" 30 privateMode;
                  2%nat := recorder "idle" 2400 privateMode ]};
     infos := {[ 0%nat := hero_info ]};
     warnings := [];
     destroyed := [];
     instances := 3 |}.

Definition hero_registry (privateMode : bool) : SkeletonCache :=
  {| sc_privateMode := privateMode;
     _skeletonCache := {[ "hero"%string := 0%nat ]};
     _animationPool := ∅ |}.

(** The calls on the registry that lead to [hero_world]. *)
Definition build_hero (privateMode : bool) : M SkeletonCache :=
  let sc := if privateMode then enablePrivateMode new_SkeletonCache
            else new_SkeletonCache in
  let* r := getSkeletonCache sc "hero" hero_data in
  let* r := initAnimationCache (snd r) "hero" hero_asset "walk" in
  let* r := initAnimationCache (snd r) "hero" hero_asset "run" in
  let* r := initAnimationCache (snd r) "hero" hero_asset "idle" in
  ret (snd r).

(** The store of a finished call, for the scenarios that go on from it. *)
Definition world_after {A} (r : Res A) : World :=
  match r with
  | Done _ w => w
  | _ => empty_world
  end.

(** "walk" baked up to frame 5: it is the active recorder of "hero". *)
Definition walking_world (privateMode : bool) : World :=
  world_after (updateToFrame 2 0 (Some 5) (hero_world privateMode)).

(** Two skeletons, "hero" and "hero2", each with a recorder of "walk",
    both removed: the two recorders are in the pool. *)
Definition build_pool : M SkeletonCache :=
  let* r := getSkeletonCache new_SkeletonCache "hero" hero_data in
  let* r := getSkeletonCache (snd r) "hero2" hero_data in
  let* r := initAnimationCache (snd r) "hero" hero_asset "walk" in
  let* r := initAnimationCache (snd r) "hero2" hero_asset "walk" in
  let* sc := removeSkeleton (snd r) "hero" in
  removeSkeleton sc "hero2".

Definition pool_registry : SkeletonCache :=
  {| sc_privateMode := false;
     _skeletonCache := ∅;
     _animationPool := {[ "hero#walk"%string := 0%nat;
                          "hero2#walk"%string := 1%nat ]} |}.

Definition pool_world : World := world_after (build_pool empty_world).

(** A recorder asked for under the name "jump", which "hero" does not
    have: recorder 3. *)
Definition jump_world : World :=
  world_after
    (initAnimationCache (hero_registry false) "hero" hero_asset "jump"
       (hero_world false)).

(** "idle" at the cap: 1800 frames in, [totalTime] at 30, bake begun. *)
Definition capped_recorder : AnimationCache :=
  set_totalTime 30
    (set_frameIdx 1799 (set_invalid false (recorder "idle" 2400 false))).

Definition capped_world : World :=
  set_caches (<[2%nat := capped_recorder]> (caches (hero_world false)))
    (hero_world false).

(** An engine that reports, at every step, the completion of the animation
    that the instance plays. *)
Definition eager_engine : SpineEngine := {|
  SkeletonInstance := BookInstance;
  initSkeleton _ :=
    {| bk_animation := None; bk_skin := None; bk_steps := 0 |};
  inst_setSkin i s :=
    {| bk_animation := bk_animation i; bk_skin := Some s;
       bk_steps := bk_steps i |};
  inst_setAnimation i s :=
    {| bk_animation := Some s; bk_skin := bk_skin i; bk_steps := 0 |};
  inst_updateAnimation i _ :=
    ({| bk_animation := bk_animation i; bk_skin := bk_skin i;
        bk_steps := bk_steps i + 1 |}, [bk_animation i]);
  inst_updateRenderData i :=
    (i, {| vCount := bk_steps i; iCount := 0; vData := []; iData := [];
           meshes := [] |});
  inst_bones _ := []
|}.

(** On that engine: skeleton "hero" with the recorder of "walk" (0), whose
    bake has begun. *)
Definition eager_world : @World eager_engine :=
  let w0 := {| caches := ∅; infos := ∅; warnings := []; destroyed := [];
               instances := 0 |} in
  match
    (let* r := getSkeletonCache new_SkeletonCache "hero" hero_data in
     let* r := initAnimationCache (snd r) "hero" hero_asset "walk" in
     begin (engine := eager_engine) 1 0) w0
  with
  | Done _ w => w
  | _ => w0
  end.

(** "run" baked to its end. *)
Definition run_baked_world : World :=
  world_after (updateToFrame 2 1 None (hero_world false)).

(** ** Notions used in the statements *)

Section Notions.

Context {engine : SpineEngine}.

(** An engine that does not call the [complete] handler while stepping. *)
Definition quiet : Prop :=
  forall (i : SkeletonInstance) (dt : Q), snd (inst_updateAnimation i dt) = [].

(** What one iteration of the baking loop does to the recorder, on a
    quiet engine. *)
Definition bake_step (x : AnimationCache) : AnimationCache :=
  let x1 :=
    set_instance (fst (inst_updateAnimation (_instance x) FrameTime))
      (set_totalTime (totalTime x + FrameTime)%Q
         (set_frameIdx (_frameIdx x + 1) x)) in
  let rd := inst_updateRenderData (_instance x1) in
  let x2 := updateRenderData (_frameIdx x1) (snd rd) (set_instance (fst rd) x1) in
  if _maxFrameIdex x2 <=? _frameIdx x2 then set_isCompleted true x2 else x2.

(** What [begin] does to the recorder that starts. *)
Definition begun (animationName : string) (x : AnimationCache)
    : AnimationCache :=
  set_invalid false
    (set_totalTime 0
       (set_isCompleted false
          (set_frameIdx (-1)
             (set_instance
                (inst_setAnimation (_instance x) animationName) x)))).

(** What [invalidAllFrame] and [clear] do to a recorder. *)
Definition invalidated (x : AnimationCache) : AnimationCache :=
  set_invalid true (set_isCompleted false x).

Definition cleared (x : AnimationCache) : AnimationCache :=
  invalidated (set_inited false x).

(** The number of frames of a full bake: one per index up to
    [_maxFrameIdex], and no more than the 1800 ticks of [FrameTime] that
    fit below [MaxCacheTime]. *)
Definition full_bake_length (x : AnimationCache) : Z :=
  Z.min (_maxFrameIdex x + 1) 1800.

(** A call of [updateToFrame] that runs to the end of the animation: no
    target, or a target that is not below [_maxFrameIdex]. *)
Definition to_the_end (x : AnimationCache) (frameIdx : option Z) : Prop :=
  match frameIdx with
  | None => True
  | Some t => _maxFrameIdex x <= t
  end.

(** The active recorder of the context, when it is another recorder than
    [this], is in the store; and when [this] is in shared mode, the bake of
    that recorder has begun: it is not invalid and its frame index is at
    least -1. *)
Definition prev_ready (w : World) (this : cref) (x : AnimationCache)
    (inf : SkeletonCacheItemInfo) : Prop :=
  match curAnimationCache inf with
  | None => True
  | Some prev =>
      prev = this \/
      exists xp,
        caches w !! prev = Some xp /\
        (_privateMode x = true \/ (_invalid xp = false /\ -1 <= _frameIdx xp))
  end.

End Notions.

(** ** Notions used in the further statements *)

Section MoreNotions.

Context {engine : SpineEngine}.

(** What [init] does to a recorder. *)
Definition bound (i : iref) (animationName : string) (x : AnimationCache)
    : AnimationCache :=
  set_skeletonInfo (Some i)
    (set_animationName (Some animationName) (set_inited true x)).

(** What [setAnimation] does to a recorder, and to the log of warnings. *)
Definition configured (animationName : string) (x : AnimationCache)
    : AnimationCache :=
  match find_animation (animations (_skeletonData x)) animationName with
  | None => x
  | Some animation =>
      let m := Qfloor (duration animation / FrameTime) in
      let m := if m <=? 0 then 1 else m in
      set_instance (inst_setAnimation (_instance x) animationName)
        (set_maxFrameIdex m x)
  end.

Definition warned (animationName : string) (x : AnimationCache)
    (log : list string) : list string :=
  match find_animation (animations (_skeletonData x)) animationName with
  | None =>
      ("find no animation named " +:+ animationName +:+ " !!!")%string :: log
  | Some _ => log
  end.


(** [k] iterations of the baking loop, on a quiet engine. *)
Definition bake_steps (k : nat) (x : AnimationCache) : AnimationCache :=
  Nat.iter k bake_step x.

(** Every recorder of a dictionary is in the store. *)
Definition all_stored (m : gmap string cref) (w : World) : Prop :=
  forall k r, m !! k = Some r -> is_Some (caches w !! r).

(** The order of the targets of [updateToFrame]: a call without a target
    goes at least as far as any call. *)
Definition target_le (t1 t2 : option Z) : Prop :=
  match t2 with
  | None => True
  | Some b => match t1 with Some a => a <= b | None => False end
  end.

(** The slots [0 .. _frameIdx] of [frames] hold a frame each. *)
Definition hole_free (x : AnimationCache) : Prop :=
  forall j, 0 <= j <= _frameIdx x -> is_Some (arr_get (frames x) (Some j)).

(** Two stores that differ in their recorders at most. *)
Definition only_caches (w w' : World) : Prop :=
  infos w' = infos w /\ warnings w' = warnings w /\
  destroyed w' = destroyed w /\ instances w' = instances w.

(** The character ['#'] does not occur in a string. *)
Fixpoint hash_free (s : string) : bool :=
  match s with
  | EmptyString => true
  | String ch s' => negb (Ascii.eqb ch "#"%char) && hash_free s'
  end.

End MoreNotions.

(** [all_stored] for a dictionary that is given: one case for each key. *)
Ltac stored_by_cases :=
  let H := fresh "H" in
  intros ? ? H; apply elem_of_map_to_list in H; vm_compute in H;
  repeat (apply elem_of_cons in H; destruct H as [H|H];
          [injection H as -> ->; eexists; vm_compute; reflexivity|]);
  inversion H.


(** * Verification *)

Section Proofs.

Context {engine : SpineEngine}.

(** ** Stepping through the store monad *)

Lemma bind_Done {A B} (m : M A) (k : A -> M B) w x w' :
  m w = Done x w' -> bind m k w = k x w'.
Proof. unfold bind. now intros ->. Qed.

Lemma getCache_Some r w x :
  caches w !! r = Some x -> getCache r w = Done x w.
Proof. unfold getCache. now intros ->. Qed.

Lemma modCache_Some r f w x :
  caches w !! r = Some x ->
  modCache r f w = Done tt (set_caches (<[r := f x]> (caches w)) w).
Proof.
  intros H. unfold modCache. now rewrite (bind_Done _ _ _ _ _ (getCache_Some _ _ _ H)).
Qed.

Lemma getInfo_Some i w x :
  infos w !! i = Some x -> getInfo i w = Done x w.
Proof. unfold getInfo. now intros ->. Qed.

Lemma modInfo_Some i f w x :
  infos w !! i = Some x ->
  modInfo i f w = Done tt (set_infos (<[i := f x]> (infos w)) w).
Proof.
  intros H. unfold modInfo. now rewrite (bind_Done _ _ _ _ _ (getInfo_Some _ _ _ H)).
Qed.

(** Worlds are compared field by field. *)
Lemma world_eq (w1 w2 : World) :
  caches w1 = caches w2 -> infos w1 = infos w2 ->
  warnings w1 = warnings w2 -> destroyed w1 = destroyed w2 ->
  instances w1 = instances w2 -> w1 = w2.
Proof. destruct w1, w2. cbn. now intros -> -> -> -> ->. Qed.

(** ** The animation found by [setAnimation] *)




(** ** C2: the maximum frame index *)


(** ** C4, C10: frame lookup *)

(** C4.  For a recorder with [_maxFrameIdex = m >= 1] and non-negative
    integers [i] and [k], [getFrame (i + k * m)] is [getFrame i], and
    [getFrame i] is the element [i mod m] of [frames].  The recorder need
    not be completed for this. *)
Theorem C4_getFrame_wraps (x : AnimationCache) (i k : Z) :
  1 <= _maxFrameIdex x -> 0 <= i -> 0 <= k ->
  getFrame x (i + k * _maxFrameIdex x) = getFrame x i /\
  getFrame x i = mjoin (frames x !! Z.to_nat (i mod _maxFrameIdex x)).
Proof.
  intros Hm Hi Hk. unfold getFrame, js_rem.
  destruct (_maxFrameIdex x =? 0) eqn:E; [apply Z.eqb_eq in E; lia|].
  assert (Hr : forall j, 0 <= j -> Z.rem j (_maxFrameIdex x) = j mod _maxFrameIdex x).
  { intros j Hj. apply Z.rem_mod_nonneg; lia. }
  rewrite (Hr i Hi), (Hr (i + k * _maxFrameIdex x)) by nia.
  rewrite Z_mod_plus_full. split; [reflexivity|].
  unfold arr_get.
  destruct (i mod _maxFrameIdex x <? 0) eqn:F; [|reflexivity].
  apply Z.ltb_lt in F. pose proof (Z.mod_pos_bound i (_maxFrameIdex x)). lia.
Qed.

(** C10.  For a recorder whose [_maxFrameIdex] is still 0, [getFrame i] is
    [undefined] for every integer [i]: the remainder is [NaN], which is
    the index of no element. *)
Theorem C10_getFrame_unconfigured (x : AnimationCache) (i : Z) :
  _maxFrameIdex x = 0 -> getFrame x i = None.
Proof.
  intros Hm. unfold getFrame. rewrite Hm. reflexivity.
Qed.

(** ** The baking loop *)

Lemma Qlt_bool_iff (x y : Q) : Qlt_bool x y = true <-> (x < y)%Q.
Proof. unfold Qlt_bool, Qlt. apply Z.ltb_lt. Qed.

Lemma ticks_below_cap (n : Z) :
  (inject_Z n * FrameTime < MaxCacheTime)%Q <-> n < 1800.
Proof.
  unfold Qlt, FrameTime, MaxCacheTime. simpl. lia.
Qed.

Lemma needToUpdate_true x target :
  isCompleted x = false ->
  (totalTime x < MaxCacheTime)%Q ->
  match target with None => True | Some t => _frameIdx x < t end ->
  needToUpdate x target = true.
Proof.
  intros Hc Ht Hf. unfold needToUpdate. rewrite Hc.
  apply Qlt_bool_iff in Ht. rewrite Ht.
  destruct target as [t|]; [|reflexivity].
  apply Z.ltb_lt in Hf. now rewrite Hf.
Qed.

Lemma needToUpdate_capped x target :
  ~ (totalTime x < MaxCacheTime)%Q -> needToUpdate x target = false.
Proof.
  intros Ht. unfold needToUpdate.
  destruct (Qlt_bool (totalTime x) MaxCacheTime) eqn:E.
  - exfalso. apply Ht. now apply Qlt_bool_iff.
  - now rewrite andb_false_r.
Qed.

Lemma needToUpdate_completed x target :
  isCompleted x = true -> needToUpdate x target = false.
Proof. intros Hc. unfold needToUpdate. now rewrite Hc. Qed.

Lemma bake_frame_quiet this w x :
  quiet -> caches w !! this = Some x ->
  bake_frame this w =
  Done tt (set_caches (<[this := bake_step x]> (caches w)) w).
Proof.
  intros Hq Hx. unfold bake_frame.
  rewrite (bind_Done _ _ _ _ _ (getCache_Some _ _ _ Hx)).
  unfold bind at 1. unfold putCache at 1.
  unfold bind at 1. unfold dispatch. rewrite Hq. cbn [fold_left].
  erewrite bind_Done
    by (apply getCache_Some; cbn [caches set_caches]; apply lookup_insert_eq).
  unfold putCache, set_caches. cbn [caches infos warnings destroyed instances].
  rewrite insert_insert_eq. reflexivity.
Qed.

Lemma bake_step_frameIdx x : _frameIdx (bake_step x) = _frameIdx x + 1.
Proof. unfold bake_step. cbv zeta. now destruct (_ <=? _). Qed.

Lemma bake_step_totalTime x :
  totalTime (bake_step x) = (totalTime x + FrameTime)%Q.
Proof. unfold bake_step. cbv zeta. now destruct (_ <=? _). Qed.

Lemma bake_step_isCompleted x :
  isCompleted (bake_step x) =
  (_maxFrameIdex x <=? _frameIdx x + 1) || isCompleted x.
Proof.
  unfold bake_step. cbv zeta.
  cbn [_maxFrameIdex _frameIdx updateRenderData set_frames set_instance
       set_totalTime set_frameIdx].
  now destruct (_ <=? _).
Qed.

Lemma bake_step_frames x :
  exists v, frames (bake_step x) = arr_set (frames x) (_frameIdx x + 1) v.
Proof.
  unfold bake_step. cbv zeta. eexists.
  destruct (_ <=? _); reflexivity.
Qed.

Lemma bake_step_kept x :
  _maxFrameIdex (bake_step x) = _maxFrameIdex x /\
  _skeletonInfo (bake_step x) = _skeletonInfo x /\
  _animationName (bake_step x) = _animationName x /\
  _inited (bake_step x) = _inited x /\
  _invalid (bake_step x) = _invalid x /\
  _privateMode (bake_step x) = _privateMode x.
Proof. unfold bake_step. cbv zeta. now destruct (_ <=? _). Qed.

(** More fuel does not change the result of the loop. *)
Lemma bake_loop_mono this target (n : nat) :
  forall (m : nat) w w',
    bake_loop n this target w = Done tt w' -> (n <= m)%nat ->
    bake_loop m this target w = Done tt w'.
Proof.
  induction n as [|n IH]; intros m w w' H Hle; [discriminate|].
  destruct m as [|m]; [lia|].
  cbn [bake_loop] in *. unfold bind in *.
  destruct (bake_frame this w) as [[] w1| | |]; try discriminate.
  destruct (getCache this w1) as [x1 w2| | |]; try discriminate.
  destruct (needToUpdate x1 target); [|exact H].
  apply IH; [exact H|lia].
Qed.

(** On a quiet engine the loop, started below the end, runs to the end:
    to the frame index [_maxFrameIdex], or to the last frame below the cap. *)
Lemma bake_loop_full this target :
  quiet ->
  forall (k : nat) w x,
    caches w !! this = Some x ->
    isCompleted x = false ->
    (totalTime x == inject_Z (_frameIdx x + 1) * FrameTime)%Q ->
    to_the_end x target ->
    _frameIdx x + 1 < full_bake_length x ->
    Z.of_nat k = full_bake_length x - (_frameIdx x + 1) ->
    exists x',
      bake_loop k this target w =
        Done tt (set_caches (<[this := x']> (caches w)) w) /\
      _frameIdx x' = full_bake_length x - 1 /\
      (totalTime x' == inject_Z (full_bake_length x) * FrameTime)%Q /\
      isCompleted x' = (_maxFrameIdex x <=? full_bake_length x - 1) /\
      _maxFrameIdex x' = _maxFrameIdex x /\
      _skeletonInfo x' = _skeletonInfo x.
Proof.
  intros Hq k. induction k as [|k IH]; intros w x Hx Hc Ht Hend Hlt Hk.
  { lia. }
  cbn [bake_loop].
  rewrite (bind_Done _ _ _ _ _ (bake_frame_quiet _ _ _ Hq Hx)).
  pose proof (bake_step_frameIdx x) as Hf.
  pose proof (bake_step_totalTime x) as Htt.
  pose proof (bake_step_isCompleted x) as Hic.
  destruct (bake_step_kept x) as (Hmax & Hinfo & _).
  set (x1 := bake_step x) in *. clearbody x1.
  erewrite bind_Done by (apply getCache_Some; apply lookup_insert_eq).
  assert (Ht1 : (totalTime x1 == inject_Z (_frameIdx x1 + 1) * FrameTime)%Q).
  { rewrite Htt, Hf, Ht. rewrite (inject_Z_plus (_frameIdx x + 1) 1). ring. }
  assert (HN : full_bake_length x1 = full_bake_length x)
    by (unfold full_bake_length; now rewrite Hmax).
  unfold full_bake_length in Hlt, Hk |- *.
  destruct (Z_lt_dec (_frameIdx x + 2) (Z.min (_maxFrameIdex x + 1) 1800))
    as [Hmore|Hlast].
  - (* another frame follows *)
    assert (Hneed : needToUpdate x1 target = true).
    { apply needToUpdate_true.
      - rewrite Hic, Hc, orb_false_r. apply Z.leb_gt. lia.
      - rewrite Ht1. apply ticks_below_cap. lia.
      - destruct target as [t|]; [|exact I].
        unfold to_the_end in Hend. lia. }
    rewrite Hneed.
    destruct (IH (set_caches (<[this := x1]> (caches w)) w) x1)
      as (x' & Hrun & Hf' & Ht' & Hc' & Hm' & Hi').
    + apply lookup_insert_eq.
    + rewrite Hic, Hc, orb_false_r. apply Z.leb_gt. lia.
    + exact Ht1.
    + unfold to_the_end in *. rewrite Hmax. exact Hend.
    + rewrite HN, Hf. unfold full_bake_length. lia.
    + rewrite HN, Hf. unfold full_bake_length. lia.
    + exists x'. rewrite Hrun. split.
      * f_equal. apply world_eq; try reflexivity.
        apply insert_insert_eq.
      * rewrite HN in Hf', Ht', Hc'. rewrite Hmax in Hc', Hm'.
        rewrite Hi', Hinfo.
        unfold full_bake_length in Hf', Ht', Hc'. tauto.
  - (* this was the last frame *)
    assert (Hneed : needToUpdate x1 target = false).
    { destruct (Z_le_dec (_maxFrameIdex x) (_frameIdx x + 1)) as [Hle|Hgt].
      - apply needToUpdate_completed. rewrite Hic.
        apply Z.leb_le in Hle. now rewrite Hle.
      - apply needToUpdate_capped. rewrite Ht1, ticks_below_cap. lia. }
    rewrite Hneed. exists x1. split; [reflexivity|].
    rewrite Hf, Hmax, Hinfo, Hic, Hc, orb_false_r.
    split; [lia|]. split; [|split; [|split; reflexivity]].
    + rewrite Ht1, Hf. apply Qmult_comp; [|reflexivity].
      apply inject_Z_injective. lia.
    + f_equal. lia.
Qed.

(** ** [begin] and [end] *)

(** [begin] of an invalid recorder, from the store [w0] in which the
    previous recorder has been dealt with. *)
Lemma begin_with_steps rec this w w0 x i inf n :
  caches w !! this = Some x ->
  _invalid x = true ->
  _skeletonInfo x = Some i ->
  infos w !! i = Some inf ->
  _animationName x = Some n ->
  match curAnimationCache inf with
  | Some pre =>
      if decide (pre = this) then ret tt
      else if _privateMode x then invalidAllFrame pre
      else rec pre (Some 0)
  | None => ret tt
  end w = Done tt w0 ->
  caches w0 !! this = Some x ->
  infos w0 !! i = Some inf ->
  begin_with rec this w =
  Done tt
    (set_caches (<[this := begun n x]> (caches w0))
       (set_infos
          (<[i := set_curAnimationCache (Some this)
                    (set_listener (Some this) inf)]> (infos w0)) w0)).
Proof.
  intros Hx Hinv Hi Hinf Hn Hpre Hx0 Hinf0. unfold begin_with.
  rewrite (bind_Done _ _ _ _ _ (getCache_Some _ _ _ Hx)).
  rewrite Hinv, Hi. cbn [negb].
  unfold bind at 1. unfold bind at 1.
  rewrite (getInfo_Some _ _ _ Hinf). unfold ret at 1. cbv beta iota.
  rewrite (bind_Done _ _ _ _ _ Hpre).
  rewrite (bind_Done _ _ _ _ _ (getCache_Some _ _ _ Hx0)).
  rewrite Hn.
  unfold bind at 1, putCache at 1.
  unfold bind at 1, bind_listener.
  erewrite modInfo_Some by (cbn [infos set_caches]; exact Hinf0).
  unfold bind at 1.
  erewrite modInfo_Some
    by (cbn [infos set_caches set_infos]; apply lookup_insert_eq).
  erewrite modCache_Some
    by (cbn [caches set_caches set_infos]; apply lookup_insert_eq).
  f_equal. apply world_eq; cbn; try reflexivity.
  - now rewrite insert_insert_eq.
  - now rewrite insert_insert_eq.
Qed.

(** [begin] on a recorder that is not invalid does nothing. *)
Lemma begin_with_valid rec this w x :
  caches w !! this = Some x -> _invalid x = false ->
  begin_with rec this w = Done tt w.
Proof.
  intros Hx Hinv. unfold begin_with.
  rewrite (bind_Done _ _ _ _ _ (getCache_Some _ _ _ Hx)).
  now rewrite Hinv.
Qed.

Lemma length_arr_set_length {A} (arr : JSArray A) (n : nat) :
  length (arr_set_length arr n) = n.
Proof.
  unfold arr_set_length.
  rewrite length_app, length_take, length_replicate. lia.
Qed.

(** [end] when nothing is left to bake. *)
Lemma end_done this w x i inf :
  caches w !! this = Some x ->
  needToUpdate x None = false ->
  _skeletonInfo x = Some i ->
  infos w !! i = Some inf ->
  -1 <= _frameIdx x ->
  end_ this w =
  Done tt
    (set_infos
       (<[i := set_listener None (set_curAnimationCache None inf)]> (infos w))
       (set_caches
          (<[this := set_isCompleted true
                       (set_frames
                          (arr_set_length (frames x)
                             (Z.to_nat (_frameIdx x + 1))) x)]> (caches w))
          w)).
Proof.
  intros Hx Hneed Hi Hinf Hf. unfold end_.
  rewrite (bind_Done _ _ _ _ _ (getCache_Some _ _ _ Hx)).
  rewrite Hneed, Hi. cbn [negb].
  rewrite (bind_Done _ _ _ _ _ (modInfo_Some _ _ _ _ Hinf)).
  destruct (Z.ltb_spec (_frameIdx x + 1) 0); [lia|].
  erewrite bind_Done
    by (apply modCache_Some; cbn [caches set_infos]; exact Hx).
  erewrite bind_Done
    by (apply modCache_Some; cbn [caches set_caches]; apply lookup_insert_eq).
  unfold unbind.
  erewrite modInfo_Some
    by (cbn [infos set_caches set_infos]; apply lookup_insert_eq).
  f_equal. apply world_eq; cbn; try reflexivity.
  - now rewrite insert_insert_eq.
  - now rewrite insert_insert_eq.
Qed.

(** ** [updateToFrame (0)] on the previous recorder *)

Lemma ticks_left_pos x :
  (totalTime x < MaxCacheTime)%Q -> (1 <= ticks_left x)%nat.
Proof.
  intros Ht. unfold ticks_left.
  set (q := ((MaxCacheTime - totalTime x) / FrameTime)%Q).
  assert (Hq : (0 < q)%Q).
  { subst q. unfold Qdiv. apply Qmult_lt_0_compat; [|reflexivity].
    unfold Qminus. rewrite <- Qlt_minus_iff. exact Ht. }
  pose proof (Qle_ceiling q) as Hc.
  assert (0 < Qceiling q).
  { rewrite Zlt_Qlt. eapply Qlt_le_trans; eassumption. }
  lia.
Qed.

(** A recorder that has begun and has baked a frame is left alone: this
    holds on every engine. *)
Lemma updateToFrame_zero_baked depth prev w xp :
  caches w !! prev = Some xp ->
  _invalid xp = false ->
  0 <= _frameIdx xp ->
  updateToFrame (S depth) prev (Some 0) w = Done tt w.
Proof.
  intros Hxp Hinv Hf. cbn [updateToFrame].
  rewrite (bind_Done _ _ _ _ _ (getCache_Some _ _ _ Hxp)).
  destruct (_inited xp); cbn [negb]; [|reflexivity].
  rewrite (bind_Done _ _ _ _ _ (begin_with_valid _ _ _ _ Hxp Hinv)).
  rewrite (bind_Done _ _ _ _ _ (getCache_Some _ _ _ Hxp)).
  unfold needToUpdate.
  destruct (Z.ltb_spec (_frameIdx xp) 0); [lia|].
  now rewrite andb_false_r.
Qed.

(** A recorder that has begun bakes at most one frame, frame 0. *)
Lemma updateToFrame_zero depth prev w xp :
  quiet ->
  caches w !! prev = Some xp ->
  _invalid xp = false ->
  -1 <= _frameIdx xp ->
  exists xp',
    updateToFrame (S depth) prev (Some 0) w =
      Done tt (set_caches (<[prev := xp']> (caches w)) w) /\
    (xp' = xp \/ (_frameIdx xp = -1 /\ xp' = bake_step xp)).
Proof.
  intros Hq Hxp Hinv Hf.
  assert (Hsame : w = set_caches (<[prev := xp]> (caches w)) w).
  { apply world_eq; try reflexivity. cbn [caches set_caches].
    symmetry. now apply insert_id. }
  cbn [updateToFrame].
  rewrite (bind_Done _ _ _ _ _ (getCache_Some _ _ _ Hxp)).
  destruct (_inited xp); cbn [negb].
  2:{ exists xp. split; [unfold ret; now f_equal|now left]. }
  rewrite (bind_Done _ _ _ _ _ (begin_with_valid _ _ _ _ Hxp Hinv)).
  rewrite (bind_Done _ _ _ _ _ (getCache_Some _ _ _ Hxp)).
  destruct (needToUpdate xp (Some 0)) eqn:Hneed; cbn [negb].
  2:{ exists xp. split; [unfold ret; now f_equal|now left]. }
  unfold needToUpdate in Hneed.
  apply andb_true_iff in Hneed. destruct Hneed as [Hneed Hlt].
  apply andb_true_iff in Hneed. destruct Hneed as [_ Ht].
  apply Z.ltb_lt in Hlt. apply Qlt_bool_iff in Ht.
  exists (bake_step xp). split; [|right; split; [lia|reflexivity]].
  apply (bake_loop_mono prev (Some 0) 1); [|now apply ticks_left_pos].
  cbn [bake_loop].
  rewrite (bind_Done _ _ _ _ _ (bake_frame_quiet _ _ _ Hq Hxp)).
  erewrite bind_Done by (apply getCache_Some; apply lookup_insert_eq).
  unfold needToUpdate. rewrite bake_step_frameIdx.
  destruct (Z.ltb_spec (_frameIdx xp + 1) 0); [lia|].
  now rewrite andb_false_r.
Qed.

(** [begin] of an invalid recorder, whatever the active recorder of the
    context, on a quiet engine. *)
Lemma begin_with_ready depth this w x i inf n :
  quiet ->
  caches w !! this = Some x ->
  _invalid x = true ->
  _skeletonInfo x = Some i ->
  infos w !! i = Some inf ->
  prev_ready w this x inf ->
  _animationName x = Some n ->
  exists w',
    begin_with (updateToFrame (S depth)) this w = Done tt w' /\
    caches w' !! this = Some (begun n x) /\
    infos w' !! i =
      Some (set_curAnimationCache (Some this) (set_listener (Some this) inf)).
Proof.
  intros Hq Hx Hinv Hi Hinf Hprev Hn.
  assert (Hpre : exists w0,
    match curAnimationCache inf with
    | Some pre =>
        if decide (pre = this) then ret tt
        else if _privateMode x then invalidAllFrame pre
        else updateToFrame (S depth) pre (Some 0)
    | None => ret tt
    end w = Done tt w0 /\
    caches w0 !! this = Some x /\ infos w0 !! i = Some inf).
  { unfold prev_ready in Hprev.
    destruct (curAnimationCache inf) as [pre|]; [|now exists w].
    destruct (decide (pre = this)) as [E|Hne]; [now exists w|].
    destruct Hprev as [E|(xp & Hxp & Hmode)]; [contradiction|].
    destruct (_privateMode x).
    - eexists. split; [|split].
      + unfold invalidAllFrame. apply (modCache_Some _ _ _ _ Hxp).
      + cbn [caches set_caches]. now rewrite lookup_insert_ne.
      + exact Hinf.
    - destruct Hmode as [E|[Hpinv Hpf]]; [discriminate|].
      destruct (updateToFrame_zero depth pre w xp Hq Hxp Hpinv Hpf)
        as (xp' & Hrun & _).
      eexists. split; [exact Hrun|]. split.
      + cbn [caches set_caches]. now rewrite lookup_insert_ne.
      + exact Hinf. }
  destruct Hpre as (w0 & Hpre & Hx0 & Hinf0).
  eexists. split; [|split].
  - eapply begin_with_steps; eassumption.
  - cbn [caches set_caches]. apply lookup_insert_eq.
  - cbn [infos set_caches set_infos]. apply lookup_insert_eq.
Qed.

(** [begin] in shared mode does not touch a previous recorder that has
    begun and has baked a frame, on any engine: it is not played to the
    end.  This is the general form of what the scenario of C1 shows. *)
Lemma begin_shared_leaves_prev depth this prev w x xp i inf n :
  caches w !! this = Some x ->
  _invalid x = true ->
  _privateMode x = false ->
  _skeletonInfo x = Some i ->
  infos w !! i = Some inf ->
  curAnimationCache inf = Some prev ->
  prev <> this ->
  caches w !! prev = Some xp ->
  _invalid xp = false ->
  0 <= _frameIdx xp ->
  _animationName x = Some n ->
  exists w',
    begin (S depth) this w = Done tt w' /\
    caches w' !! prev = Some xp /\
    caches w' !! this = Some (begun n x).
Proof.
  intros Hx Hinv Hshared Hi Hinf Hcur Hne Hxp Hpinv Hpf Hn.
  eexists. split; [|split].
  - unfold begin. eapply (begin_with_steps _ this w w); try eassumption.
    rewrite Hcur, Hshared.
    destruct (decide (prev = this)) as [E|_]; [contradiction|].
    now apply (updateToFrame_zero_baked depth prev w xp).
  - cbn [caches set_caches]. now rewrite lookup_insert_ne by congruence.
  - cbn [caches set_caches]. apply lookup_insert_eq.
Qed.

(** ** C3: a full bake *)

Lemma ticks_left_begun n x : ticks_left (begun n x) = 1800%nat.
Proof. reflexivity. Qed.

(** [updateToFrame] on an invalid recorder: [begin], then the loop. *)
Lemma updateToFrame_begins depth this target w x i inf n :
  quiet ->
  caches w !! this = Some x ->
  _inited x = true ->
  _invalid x = true ->
  _skeletonInfo x = Some i ->
  infos w !! i = Some inf ->
  prev_ready w this x inf ->
  _animationName x = Some n ->
  needToUpdate (begun n x) target = true ->
  exists w0,
    updateToFrame (S (S depth)) this target w =
      bake_loop 1800 this target w0 /\
    caches w0 !! this = Some (begun n x) /\
    infos w0 !! i =
      Some (set_curAnimationCache (Some this) (set_listener (Some this) inf)).
Proof.
  intros Hq Hx Hini Hinv Hi Hinf Hprev Hn Hneed.
  destruct (begin_with_ready depth this w x i inf n)
    as (w0 & Hb & Hx0 & Hinf0); try assumption.
  exists w0. split; [|split; assumption].
  cbn [updateToFrame].
  rewrite (bind_Done _ _ _ _ _ (getCache_Some _ _ _ Hx)).
  rewrite Hini. cbn [negb].
  cbn [updateToFrame] in Hb. rewrite (bind_Done _ _ _ _ _ Hb).
  rewrite (bind_Done _ _ _ _ _ (getCache_Some _ _ _ Hx0)).
  rewrite Hneed. cbn [negb]. now rewrite ticks_left_begun.
Qed.

Lemma needToUpdate_begun n x target :
  0 <= _maxFrameIdex x -> to_the_end x target ->
  needToUpdate (begun n x) target = true.
Proof.
  intros Hmax Hend. apply needToUpdate_true.
  - reflexivity.
  - reflexivity.
  - destruct target as [t|]; [|exact I].
    unfold to_the_end in Hend. cbn. lia.
Qed.

(** A full bake of an invalid recorder, on a quiet engine. *)
Lemma updateToFrame_full depth this target w x i inf n :
  quiet ->
  caches w !! this = Some x ->
  _inited x = true ->
  _invalid x = true ->
  _skeletonInfo x = Some i ->
  infos w !! i = Some inf ->
  prev_ready w this x inf ->
  _animationName x = Some n ->
  0 <= _maxFrameIdex x ->
  to_the_end x target ->
  exists w1 x',
    updateToFrame (S (S depth)) this target w = Done tt w1 /\
    caches w1 !! this = Some x' /\
    infos w1 !! i =
      Some (set_curAnimationCache (Some this) (set_listener (Some this) inf)) /\
    _frameIdx x' = full_bake_length x - 1 /\
    (totalTime x' == inject_Z (full_bake_length x) * FrameTime)%Q /\
    isCompleted x' = (_maxFrameIdex x <=? full_bake_length x - 1) /\
    _maxFrameIdex x' = _maxFrameIdex x /\
    _skeletonInfo x' = Some i.
Proof.
  intros Hq Hx Hini Hinv Hi Hinf Hprev Hn Hmax Hend.
  destruct (updateToFrame_begins depth this target w x i inf n)
    as (w0 & Hrun0 & Hx0 & Hinf0); auto using needToUpdate_begun.
  destruct (bake_loop_full this target Hq
              (Z.to_nat (full_bake_length x)) w0 (begun n x))
    as (x' & Hrun & Hf' & Ht' & Hc' & Hm' & Hi'); try assumption.
  - reflexivity.
  - reflexivity.
  - unfold full_bake_length, begun. cbn. lia.
  - unfold full_bake_length, begun. cbn. lia.
  - eexists _, x'. split; [|split; [|split]].
    + rewrite Hrun0. apply (bake_loop_mono _ _ _ _ _ _ Hrun).
      unfold full_bake_length. lia.
    + cbn [caches set_caches]. apply lookup_insert_eq.
    + exact Hinf0.
    + change (full_bake_length (begun n x)) with (full_bake_length x) in *.
      change (_maxFrameIdex (begun n x)) with (_maxFrameIdex x) in *.
      change (_skeletonInfo (begun n x)) with (_skeletonInfo x) in *.
      rewrite Hi', Hi. tauto.
Qed.


(** ** The baking loop on any engine *)

Lemma completeHandle_kept h e w r y :
  caches w !! r = Some y ->
  exists y',
    caches (completeHandle h e w) !! r = Some y' /\
    (y' = y \/ y' = set_isCompleted true y).
Proof.
  intros Hy. unfold completeHandle.
  destruct e as [n|]; [|eauto].
  destruct (caches w !! h) as [xh|] eqn:Hh; [|eauto].
  destruct (decide _); [|eauto].
  cbn [caches set_caches]. destruct (decide (h = r)) as [->|Hne].
  - rewrite lookup_insert_eq. rewrite Hh in Hy. injection Hy as ->. eauto.
  - rewrite lookup_insert_ne by exact Hne. eauto.
Qed.

Lemma fire_complete_kept info e w r y :
  caches w !! r = Some y ->
  exists y',
    caches (fire_complete info w e) !! r = Some y' /\
    (y' = y \/ y' = set_isCompleted true y).
Proof.
  intros Hy. unfold fire_complete.
  destruct info as [i|]; [|eauto].
  destruct (infos w !! i) as [inf|]; [|eauto].
  destruct (listener inf) as [h|]; [|eauto].
  now apply completeHandle_kept.
Qed.

(** The handlers that the engine calls can only set [isCompleted]. *)
Lemma dispatch_kept info es :
  forall w r y,
    caches w !! r = Some y ->
    exists y',
      caches (fold_left (fire_complete info) es w) !! r = Some y' /\
      (y' = y \/ y' = set_isCompleted true y).
Proof.
  induction es as [|e es IH]; intros w r y Hy; cbn [fold_left]; [eauto|].
  destruct (fire_complete_kept info e w r y Hy) as (y1 & Hy1 & Hor1).
  destruct (IH _ r y1 Hy1) as (y2 & Hy2 & Hor2).
  exists y2. split; [exact Hy2|].
  destruct Hor1 as [->| ->], Hor2 as [->| ->]; auto.
Qed.

(** One iteration, on any engine: the frame index and the elapsed time
    advance by one tick. *)
Lemma bake_frame_any this w x :
  caches w !! this = Some x ->
  exists w' x',
    bake_frame this w = Done tt w' /\
    caches w' !! this = Some x' /\
    _frameIdx x' = _frameIdx x + 1 /\
    totalTime x' = (totalTime x + FrameTime)%Q.
Proof.
  intros Hx. unfold bake_frame.
  rewrite (bind_Done _ _ _ _ _ (getCache_Some _ _ _ Hx)).
  unfold bind at 1. unfold putCache at 1.
  unfold bind at 1. unfold dispatch.
  match goal with
  | |- context [fold_left (fire_complete ?info) ?es ?w1] =>
      destruct (dispatch_kept info es w1 this
                  (set_instance
                     (fst (inst_updateAnimation (_instance x) FrameTime))
                     (set_totalTime (totalTime x + FrameTime)%Q
                        (set_frameIdx (_frameIdx x + 1) x))))
        as (y' & Hy' & Hor); [apply lookup_insert_eq|]
  end.
  rewrite (bind_Done _ _ _ _ _ (getCache_Some _ _ _ Hy')).
  unfold putCache. eexists _, _. split; [reflexivity|].
  split; [apply lookup_insert_eq|].
  destruct Hor as [->| ->]; destruct (_ <=? _); split; reflexivity.
Qed.

(** The loop on any engine, with fuel for the ticks left below the cap: it
    returns after [k >= 1] iterations, and all iterations but the first
    began below the cap. *)
Lemma bake_loop_any this target (n : nat) :
  forall w x,
    caches w !! this = Some x ->
    (MaxCacheTime - totalTime x <= inject_Z (Z.of_nat n) * FrameTime)%Q ->
    (1 <= n)%nat ->
    exists w' x' (k : nat),
      bake_loop n this target w = Done tt w' /\
      caches w' !! this = Some x' /\
      (1 <= k)%nat /\
      _frameIdx x' = _frameIdx x + Z.of_nat k /\
      (totalTime x' == totalTime x + inject_Z (Z.of_nat k) * FrameTime)%Q /\
      (k = 1%nat \/ (totalTime x' - FrameTime < MaxCacheTime)%Q).
Proof.
  induction n as [|n IH]; intros w x Hx Hfuel Hn; [lia|].
  cbn [bake_loop].
  destruct (bake_frame_any this w x Hx) as (w1 & x1 & Hrun & Hx1 & Hf1 & Ht1).
  rewrite (bind_Done _ _ _ _ _ Hrun).
  rewrite (bind_Done _ _ _ _ _ (getCache_Some _ _ _ Hx1)).
  destruct (needToUpdate x1 target) eqn:Hneed.
  - unfold needToUpdate in Hneed.
    apply andb_true_iff in Hneed. destruct Hneed as [Hneed _].
    apply andb_true_iff in Hneed. destruct Hneed as [_ Hlt].
    apply Qlt_bool_iff in Hlt.
    assert (Hfuel' : (MaxCacheTime - totalTime x1 <=
                      inject_Z (Z.of_nat n) * FrameTime)%Q /\ (1 <= n)%nat).
    { rewrite Ht1 in *.
      rewrite Nat2Z.inj_succ in Hfuel. unfold Z.succ in Hfuel.
      rewrite inject_Z_plus in Hfuel.
      change (inject_Z 1) with 1%Q in Hfuel.
      change FrameTime with (1 # 60)%Q in *.
      change MaxCacheTime with 30%Q in *.
      split; [lra|].
      destruct n; [|lia].
      change (inject_Z (Z.of_nat 0)) with 0%Q in Hfuel. lra. }
    destruct Hfuel' as [Hfuel' Hn'].
    destruct (IH w1 x1 Hx1 Hfuel' Hn')
      as (w' & x' & k & Hloop & Hx' & Hk & Hf' & Ht' & Hguard).
    exists w', x', (S k). split; [exact Hloop|]. split; [exact Hx'|].
    split; [lia|]. split; [lia|].
    assert (Ht'' : (totalTime x' ==
                    totalTime x + inject_Z (Z.of_nat (S k)) * FrameTime)%Q).
    { rewrite Ht', Ht1. rewrite Nat2Z.inj_succ. unfold Z.succ.
      rewrite inject_Z_plus. change (inject_Z 1) with 1%Q. ring. }
    split; [exact Ht''|]. right.
    destruct Hguard as [->|Hguard]; [|exact Hguard].
    rewrite Ht'. change (inject_Z (Z.of_nat 1)) with 1%Q.
    change FrameTime with (1 # 60)%Q in *. lra.
  - exists w1, x1, 1%nat. split; [reflexivity|]. split; [exact Hx1|].
    split; [lia|]. split; [exact Hf1|]. split; [|now left].
    rewrite Ht1. change (inject_Z (Z.of_nat 1)) with 1%Q. ring.
Qed.

Lemma ticks_left_enough x :
  (totalTime x < MaxCacheTime)%Q ->
  (MaxCacheTime - totalTime x <=
   inject_Z (Z.of_nat (ticks_left x)) * FrameTime)%Q.
Proof.
  intros Ht. pose proof (ticks_left_pos x Ht) as Hpos. unfold ticks_left in *.
  set (q := ((MaxCacheTime - totalTime x) / FrameTime)%Q) in *.
  rewrite Z2Nat.id by lia.
  pose proof (Qle_ceiling q) as Hc.
  assert (Hq : (q * FrameTime == MaxCacheTime - totalTime x)%Q).
  { subst q. field. discriminate. }
  rewrite <- Hq. apply Qmult_le_compat_r; [exact Hc|discriminate].
Qed.


(** ** C8: the cap on the elapsed time *)


(** ** C7: an unknown animation name *)




(** ** C5: arbitration in private mode *)



(** ** C6: the recycle pool *)

Lemma append_inj_r (s t1 t2 : string) : (s +:+ t1 = s +:+ t2)%string -> t1 = t2.
Proof.
  induction s as [|ch s IH]; cbn; intros H; [exact H|].
  injection H as H. now apply IH.
Qed.

Lemma poolKey_inj uuid k1 k2 : poolKey uuid k1 = poolKey uuid k2 -> k1 = k2.
Proof.
  unfold poolKey. intros H. apply append_inj_r in H.
  cbn in H. now injection H.
Qed.

Lemma set_caches_id (w : World) : set_caches (caches w) w = w.
Proof. now destruct w. Qed.

Lemma clear_Some r w y :
  caches w !! r = Some y ->
  clear r w = Done tt (set_caches (alter cleared r (caches w)) w).
Proof.
  intros Hy. unfold clear.
  rewrite (bind_Done _ _ _ _ _ (modCache_Some _ _ _ _ Hy)).
  unfold invalidAllFrame.
  erewrite modCache_Some
    by (cbn [caches set_caches]; apply lookup_insert_eq).
  f_equal. apply world_eq; cbn; try reflexivity.
  rewrite insert_insert_eq. apply map_eq. intros j.
  destruct (decide (r = j)) as [<-|Hne].
  - now rewrite lookup_insert_eq, lookup_alter_eq, Hy.
  - now rewrite lookup_insert_ne, lookup_alter_ne by exact Hne.
Qed.

(** The loop of [removeSkeleton], as two folds: one over the pool, one
    over the store. *)
Lemma removeSkeleton_loop uuid (l : list (string * cref)) :
  forall (pool : gmap string cref) w,
    (forall kv, kv ∈ l -> is_Some (caches w !! kv.2)) ->
    foldM (fun pool kv =>
             let pool := <[poolKey uuid (fst kv) := snd kv]> pool in
             clear (snd kv) ;; ret pool) l pool w =
    Done (fold_left (fun p kv => <[poolKey uuid kv.1 := kv.2]> p) l pool)
         (set_caches
            (fold_left (fun m kv => alter cleared kv.2 m) l (caches w)) w).
Proof.
  induction l as [|[k r] l IH]; intros pool w Hall.
  - cbn. unfold ret. now rewrite set_caches_id.
  - cbn [foldM fold_left fst snd].
    destruct (Hall (k, r)) as [y Hy]; [left|]. cbn in Hy.
    unfold bind at 1. unfold bind at 1.
    rewrite (clear_Some _ _ _ Hy). unfold ret at 1.
    rewrite IH.
    + f_equal.
    + intros kv Hkv. cbn [caches set_caches].
      destruct (Hall kv) as [z Hz]; [now right|].
      destruct (decide (r = kv.2)) as [E|Hne].
      * rewrite <- E, lookup_alter_eq, Hy. eauto.
      * rewrite lookup_alter_ne by exact Hne. eauto.
Qed.

Lemma fold_alter_lookup (l : list (string * cref))
    (m : gmap cref AnimationCache) (r : cref) :
  fold_left (fun m kv => alter cleared kv.2 m) l m !! r =
  if decide (r ∈ l.*2) then cleared <$> m !! r else m !! r.
Proof.
  revert m. induction l as [|[k r0] l IH]; intros m.
  - cbn. destruct (decide _) as [H|_]; [inversion H|reflexivity].
  - cbn [fold_left snd fmap list_fmap]. rewrite IH.
    destruct (decide (r0 = r)) as [->|Hne].
    + rewrite lookup_alter_eq.
      destruct (decide (r ∈ r :: l.*2)) as [_|Hn]; [|exfalso; apply Hn; left].
      destruct (decide (r ∈ l.*2)); [|reflexivity].
      now destruct (m !! r).
    + rewrite lookup_alter_ne by exact Hne.
      destruct (decide (r ∈ l.*2)) as [Hin|Hn];
        destruct (decide (r ∈ r0 :: l.*2)) as [Hin'|Hn']; try reflexivity.
      * exfalso. apply Hn'. now right.
      * exfalso. apply elem_of_cons in Hin'.
        destruct Hin' as [E|Hin']; [congruence|contradiction].
Qed.

Lemma fold_pool_other uuid (l : list (string * cref))
    (pool : gmap string cref) (k : string) :
  k ∉ l.*1 ->
  fold_left (fun p kv => <[poolKey uuid kv.1 := kv.2]> p) l pool
    !! poolKey uuid k = pool !! poolKey uuid k.
Proof.
  revert pool. induction l as [|[k0 r0] l IH]; intros pool Hk; [reflexivity|].
  cbn [fold_left fst snd]. cbn in Hk.
  rewrite IH by (intros H; apply Hk; now right).
  apply lookup_insert_ne. intros E. apply poolKey_inj in E.
  apply Hk. subst. left.
Qed.

Lemma fold_pool_lookup uuid (l : list (string * cref))
    (pool : gmap string cref) (k : string) (r : cref) :
  NoDup l.*1 -> (k, r) ∈ l ->
  fold_left (fun p kv => <[poolKey uuid kv.1 := kv.2]> p) l pool
    !! poolKey uuid k = Some r.
Proof.
  revert pool. induction l as [|[k0 r0] l IH]; intros pool Hnd Hin.
  - inversion Hin.
  - cbn [fold_left fst snd]. cbn in Hnd. apply NoDup_cons in Hnd.
    destruct Hnd as [Hk0 Hnd].
    apply elem_of_cons in Hin. destruct Hin as [E|Hin].
    + injection E as -> ->. rewrite fold_pool_other by exact Hk0.
      apply lookup_insert_eq.
    + now apply IH.
Qed.

(** C6, as the code has it.  Let [c] be the recorder of animation [a] in
    the context of [uuid].  [removeSkeleton uuid] puts [c] into the pool
    under the key of [(uuid, a)] and drops the context.  Once
    [getSkeletonCache] has made a context for [uuid] again,
    [initAnimationCache] returns [c] itself, taken out of the pool, and no
    engine instance is constructed.  The recorder returned is initialised,
    invalid and not completed; its [frames] and its [_frameIdx] are what
    they were when it was pooled. *)
Theorem C6_pooled_recorder_reused sc uuid a data asset spData w i inf c x :
  _skeletonCache sc !! uuid = Some i ->
  infos w !! i = Some inf ->
  (forall k r, animationsCache inf !! k = Some r -> is_Some (caches w !! r)) ->
  animationsCache inf !! a = Some c ->
  caches w !! c = Some x ->
  getRuntimeData asset = Some spData ->
  exists sc1 w1 i2 sc2 w2 sc3 w3 x3,
    removeSkeleton sc uuid w = Done sc1 w1 /\
    _animationPool sc1 !! poolKey uuid a = Some c /\
    getSkeletonCache sc1 uuid data w1 = Done (i2, sc2) w2 /\
    initAnimationCache sc2 uuid asset a w2 = Done (Some c, sc3) w3 /\
    _animationPool sc3 !! poolKey uuid a = None /\
    instances w3 = instances w /\
    caches w3 !! c = Some x3 /\
    isCompleted x3 = false /\
    _invalid x3 = true /\
    _inited x3 = true /\
    frames x3 = frames x /\
    _frameIdx x3 = _frameIdx x /\
    _skeletonInfo x3 = Some i2.
Proof.
  intros Hsc Hinf Hall Hc Hx Hdata.
  set (l := map_to_list (animationsCache inf)).
  assert (Hin : (a, c) ∈ l) by (apply elem_of_map_to_list; exact Hc).
  assert (Hnd : NoDup l.*1) by apply NoDup_fst_map_to_list.
  assert (Hin2 : c ∈ l.*2).
  { apply list_elem_of_fmap. exists (a, c). split; [reflexivity|exact Hin]. }
  set (pool1 := fold_left (fun p kv => <[poolKey uuid kv.1 := kv.2]> p) l
                  (_animationPool sc)).
  set (cs1 := fold_left (fun m kv => alter cleared kv.2 m) l (caches w)).
  assert (Hrm : removeSkeleton sc uuid w =
                Done (set_skeletonCache (delete uuid (_skeletonCache sc))
                        (set_animationPool pool1 sc))
                     (set_caches cs1 w)).
  { unfold removeSkeleton. rewrite Hsc.
    rewrite (bind_Done _ _ _ _ _ (getInfo_Some _ _ _ Hinf)).
    unfold for_in. fold l.
    erewrite bind_Done; [reflexivity|].
    apply removeSkeleton_loop.
    intros [k r] Hkr. apply (Hall k). now apply elem_of_map_to_list. }
  assert (Hpool : pool1 !! poolKey uuid a = Some c)
    by (apply fold_pool_lookup; assumption).
  assert (Hcs : cs1 !! c = Some (cleared x)).
  { subst cs1. rewrite fold_alter_lookup.
    destruct (decide (c ∈ l.*2)); [|contradiction]. now rewrite Hx. }
  set (i2 := fresh (dom (infos w))).
  set (inf2 := {| skeleton := data; clipper := tt; state := tt;
                  listener := None; curAnimationCache := None;
                  animationsCache := ∅ |}).
  set (sc1 := set_skeletonCache (delete uuid (_skeletonCache sc))
                (set_animationPool pool1 sc)).
  set (sc2 := set_skeletonCache (<[uuid := i2]> (_skeletonCache sc1)) sc1).
  set (w2 := set_infos (<[i2 := inf2]> (infos w)) (set_caches cs1 w)).
  assert (Hget : getSkeletonCache sc1 uuid data (set_caches cs1 w) =
                 Done (i2, sc2) w2).
  { unfold getSkeletonCache. subst sc1. cbn [_skeletonCache set_skeletonCache].
    now rewrite lookup_delete_eq. }
  set (sc3 := set_animationPool (delete (poolKey uuid a) pool1) sc2).
  set (x2 := set_skeletonInfo (Some i2)
               (set_animationName (Some a) (set_inited true (cleared x)))).
  assert (Hinit : exists w3 x3,
    initAnimationCache sc2 uuid asset a w2 = Done (Some c, sc3) w3 /\
    instances w3 = instances w /\
    caches w3 !! c = Some x3 /\
    (x3 = x2 \/ exists m inst, x3 = set_instance inst (set_maxFrameIdex m x2))).
  { unfold initAnimationCache. rewrite Hdata.
    subst sc2. cbn [_skeletonCache set_skeletonCache].
    rewrite lookup_insert_eq.
    erewrite bind_Done
      by (apply getInfo_Some; subst w2; cbn [infos set_infos];
          apply lookup_insert_eq).
    cbn [animationsCache inf2]. rewrite lookup_empty.
    cbn [_animationPool set_skeletonCache set_animationPool sc1].
    rewrite Hpool.
    unfold init, setAnimation, bind, ret.
    erewrite modCache_Some
      by (subst w2; cbn [caches set_infos set_caches]; exact Hcs).
    cbv beta iota.
    erewrite modInfo_Some
      by (subst w2; cbn [infos set_infos set_caches]; apply lookup_insert_eq).
    cbv beta iota. cbn [fst snd].
    erewrite modCache_Some
      by (cbn [caches set_infos set_caches]; apply lookup_insert_eq).
    cbv beta iota.
    erewrite getCache_Some
      by (cbn [caches set_infos set_caches]; apply lookup_insert_eq).
    cbv beta iota.
    destruct (find_animation _ a) as [an|].
    - eexists _, _. split; [reflexivity|]. split; [reflexivity|]. split.
      + cbn [caches set_infos set_caches]. apply lookup_insert_eq.
      + right. eexists _, _. reflexivity.
    - eexists _, _. split; [reflexivity|]. split; [reflexivity|]. split.
      + cbn [caches set_infos set_caches set_warnings].
        apply lookup_insert_eq.
      + left. reflexivity. }
  destruct Hinit as (w3 & x3 & Hrun & Hinst & Hx3 & Hshape).
  exists sc1, (set_caches cs1 w), i2, sc2, w2, sc3, w3, x3.
  split; [exact Hrm|]. split; [exact Hpool|]. split; [exact Hget|].
  split; [exact Hrun|]. split; [apply lookup_delete_eq|].
  split; [exact Hinst|]. split; [exact Hx3|].
  destruct Hshape as [->|(m & inst & ->)]; repeat split.
Qed.

End Proofs.

(** * The scenarios *)

(** The states of the scenarios are states that the registry reaches. *)
Example build_hero_world (privateMode : bool) :
  build_hero privateMode empty_world =
  Done (hero_registry privateMode) (hero_world privateMode).
Proof. destruct privateMode; vm_compute; reflexivity. Qed.

Example build_pool_registry :
  build_pool empty_world = Done pool_registry pool_world.
Proof. vm_compute. reflexivity. Qed.

Lemma book_engine_quiet : quiet (engine := book_engine).
Proof. intros i dt. reflexivity. Qed.

(** ** C1: arbitration in shared mode *)

(** C1 on the scenario of the specification.  "walk" is the active recorder
    of "hero", baked up to frame 5 of 60 and not completed.  [begin] on
    "run", in shared mode, calls [updateToFrame (0)] on "walk", which bakes
    nothing beyond frame 0: "walk" is still at frame 5 and not completed
    when "run" has become the active recorder. *)
Theorem C1_shared_begin_leaves_prev_unfinished :
  exists inf w' xw inf' xr,
    infos (walking_world false) !! 0%nat = Some inf /\
    curAnimationCache inf = Some 0%nat /\
    begin 2 1 (walking_world false) = Done tt w' /\
    caches w' !! 0%nat = Some xw /\
    _maxFrameIdex xw = 60 /\
    _frameIdx xw = 5 /\
    isCompleted xw = false /\
    infos w' !! 0%nat = Some inf' /\
    curAnimationCache inf' = Some 1%nat /\
    caches w' !! 1%nat = Some xr /\
    _privateMode xr = false /\
    _invalid xr = false /\
    _frameIdx xr = -1.
Proof.
  eexists _, _, _, _, _.
  repeat (split; [vm_compute; reflexivity|]).
  vm_compute; reflexivity.
Qed.

(** ** C9: destroying pooled recorders *)

(** C9 at a pool with a recorder of skeleton "hero" and one of skeleton
    "hero2".  [destroyCachedAnimations ("hero")] destroys both and removes
    both from the pool: the key of "hero2" contains "hero". *)
Theorem C9_destroy_matches_substring :
  exists sc' w',
    _animationPool pool_registry !! poolKey "hero" "walk" = Some 0%nat /\
    _animationPool pool_registry !! poolKey "hero2" "walk" = Some 1%nat /\
    destroyCachedAnimations pool_registry (Some "hero"%string) pool_world =
      Done sc' w' /\
    _animationPool sc' !! poolKey "hero2" "walk" = None /\
    destroyed pool_world = [] /\
    destroyed w' = [1%nat; 0%nat].
Proof.
  eexists _, _.
  repeat (split; [vm_compute; reflexivity|]).
  vm_compute; reflexivity.
Qed.

(** ** What fails of C3, C5, C6, C7 and C8 *)



(** C6 fails on "hero", with "walk" baked up to frame 5.  After
    [removeSkeleton], the context is gone and [initAnimationCache] returns
    [null].  With the context made again, it returns recorder 0 from the
    pool, which still has its six frames and [_frameIdx = 5]. *)
Lemma C6_counterexample :
  exists sc1 w1 i2 sc2 w2 sc3 w3 x3,
    removeSkeleton (hero_registry false) "hero" (walking_world false) =
      Done sc1 w1 /\
    _animationPool sc1 !! poolKey "hero" "walk" = Some 0%nat /\
    initAnimationCache sc1 "hero" hero_asset "walk" w1 = Done (None, sc1) w1 /\
    getSkeletonCache sc1 "hero" hero_data w1 = Done (i2, sc2) w2 /\
    initAnimationCache sc2 "hero" hero_asset "walk" w2 =
      Done (Some 0%nat, sc3) w3 /\
    caches w3 !! 0%nat = Some x3 /\
    length (frames x3) = 6%nat /\
    _frameIdx x3 = 5 /\
    frames x3 <> [] /\
    _frameIdx x3 <> -1.
Proof.
  eexists _, _, _, _, _, _, _, _.
  repeat (split; [vm_compute; reflexivity|]).
  split; vm_compute; discriminate.
Qed.



(** ** The theorems at the scenarios *)



(** C4 on a recorder of "walk": frame 65 is frame 5. *)
Lemma C4_witness :
  getFrame (recorder "walk" 60 false) (5 + 1 * 60) =
    getFrame (recorder "walk" 60 false) 5 /\
  getFrame (recorder "walk" 60 false) 5 =
    mjoin (frames (recorder "walk" 60 false) !! Z.to_nat (5 mod 60)).
Proof.
  apply (C4_getFrame_wraps (engine := book_engine)
           (recorder "walk" 60 false) 5 1); simpl; lia.
Defined.

(** C10 on the recorder of "jump". *)
Lemma C10_witness :
  exists x,
    caches jump_world !! 3%nat = Some x /\
    getFrame x 7 = None.
Proof.
  eexists. split; [vm_compute; reflexivity|].
  apply (C10_getFrame_unconfigured (engine := book_engine)).
  reflexivity.
Defined.


(** C6 on "hero", with "walk" baked up to frame 5. *)
Lemma C6_witness :
  exists sc1 w1 i2 sc2 w2 sc3 w3 x3,
    removeSkeleton (hero_registry false) "hero" (walking_world false) =
      Done sc1 w1 /\
    _animationPool sc1 !! poolKey "hero" "walk" = Some 0%nat /\
    getSkeletonCache sc1 "hero" hero_data w1 = Done (i2, sc2) w2 /\
    initAnimationCache sc2 "hero" hero_asset "walk" w2 =
      Done (Some 0%nat, sc3) w3 /\
    instances w3 = 3%nat /\
    caches w3 !! 0%nat = Some x3 /\
    isCompleted x3 = false /\
    _invalid x3 = true /\
    _inited x3 = true /\
    length (frames x3) = 6%nat.
Proof.
  edestruct (C6_pooled_recorder_reused (engine := book_engine)
               (hero_registry false) "hero" "walk" hero_data hero_asset
               hero_data (walking_world false) 0%nat)
    as (sc1 & w1 & i2 & sc2 & w2 & sc3 & w3 & x3 & H1 & H2 & H3 & H4 & _
        & H6 & H7 & H8 & H9 & H10 & H11 & _).
  - reflexivity.
  - vm_compute; reflexivity.
  - intros k r H. apply elem_of_map_to_list in H.
    vm_compute in H.
    repeat (apply elem_of_cons in H; destruct H as [H|H];
            [injection H as -> ->; eexists; vm_compute; reflexivity|]).
    inversion H.
  - vm_compute; reflexivity.
  - vm_compute; reflexivity.
  - reflexivity.
  - exists sc1, w1, i2, sc2, w2, sc3, w3, x3. rewrite H11.
    repeat split; assumption.
Defined.



(** * Further properties of the registry and of the recorder *)

Section More.

Context {engine : SpineEngine}.

(** ** [getSkeletonCache] *)


(** ** [setAnimation] and [initAnimationCache] *)

Lemma setAnimation_spec r a w x :
  caches w !! r = Some x ->
  setAnimation r a w =
  Done tt
    (set_warnings (warned a x (warnings w))
       (set_caches (<[r := configured a x]> (caches w)) w)).
Proof.
  intros Hx. unfold setAnimation, configured, warned.
  rewrite (bind_Done _ _ _ _ _ (getCache_Some _ _ _ Hx)).
  destruct (find_animation _ a).
  - unfold putCache. f_equal.
  - unfold warn. f_equal. apply world_eq; try reflexivity.
    cbn [caches set_caches set_warnings]. symmetry. now apply insert_id.
Qed.

Lemma init_spec r i a w x :
  caches w !! r = Some x ->
  init r i a w = Done tt (set_caches (<[r := bound i a x]> (caches w)) w).
Proof. intros Hx. unfold init. now rewrite (modCache_Some _ _ _ _ Hx). Qed.

(** [initAnimationCache] when the context has the recorder. *)
Lemma initAnimationCache_found sc uuid asset spData a w i inf r x :
  getRuntimeData asset = Some spData ->
  _skeletonCache sc !! uuid = Some i ->
  infos w !! i = Some inf ->
  animationsCache inf !! a = Some r ->
  caches w !! r = Some x ->
  initAnimationCache sc uuid asset a w =
  Done (Some r, sc)
    (set_warnings (warned a x (warnings w))
       (set_caches (<[r := configured a (bound i a x)]> (caches w)) w)).
Proof.
  intros Hdata Hsc Hinf Hr Hx. unfold initAnimationCache.
  rewrite Hdata, Hsc.
  rewrite (bind_Done _ _ _ _ _ (getInfo_Some _ _ _ Hinf)).
  rewrite Hr. unfold bind at 1. unfold ret at 1. cbn [fst snd].
  rewrite (bind_Done _ _ _ _ _ (init_spec _ i a _ _ Hx)).
  erewrite bind_Done
    by (apply setAnimation_spec; cbn [caches set_caches];
        apply lookup_insert_eq).
  unfold ret. f_equal. apply world_eq; try reflexivity.
  cbn [caches set_caches set_warnings]. apply insert_insert_eq.
Qed.

(** [initAnimationCache] when the recorder comes from the pool. *)
Lemma initAnimationCache_pooled sc uuid asset spData a w i inf r x :
  getRuntimeData asset = Some spData ->
  _skeletonCache sc !! uuid = Some i ->
  infos w !! i = Some inf ->
  animationsCache inf !! a = None ->
  _animationPool sc !! poolKey uuid a = Some r ->
  caches w !! r = Some x ->
  initAnimationCache sc uuid asset a w =
  Done (Some r,
        set_animationPool (delete (poolKey uuid a) (_animationPool sc)) sc)
    (set_warnings (warned a x (warnings w))
       (set_caches (<[r := configured a (bound i a x)]> (caches w))
          (set_infos
             (<[i := set_animationsCache (<[a := r]> (animationsCache inf))
                       inf]> (infos w)) w))).
Proof.
  intros Hdata Hsc Hinf Hr Hpool Hx. unfold initAnimationCache.
  rewrite Hdata, Hsc.
  rewrite (bind_Done _ _ _ _ _ (getInfo_Some _ _ _ Hinf)).
  rewrite Hr, Hpool. unfold bind, ret. cbn [fst snd].
  rewrite (init_spec _ i a _ _ Hx). cbv beta iota.
  erewrite modInfo_Some by (cbn [infos set_caches]; exact Hinf).
  cbv beta iota. cbn [fst snd].
  erewrite init_spec
    by (cbn [caches set_caches set_infos]; apply lookup_insert_eq).
  cbv beta iota.
  erewrite setAnimation_spec
    by (cbn [caches set_caches]; apply lookup_insert_eq).
  cbv beta iota. f_equal. apply world_eq; try reflexivity.
  cbn [caches set_caches set_warnings set_infos].
  now rewrite !insert_insert_eq.
Qed.


Lemma configured_kept a x :
  _inited (configured a x) = _inited x /\
  _skeletonInfo (configured a x) = _skeletonInfo x /\
  _animationName (configured a x) = _animationName x /\
  _privateMode (configured a x) = _privateMode x /\
  _invalid (configured a x) = _invalid x /\
  isCompleted (configured a x) = isCompleted x /\
  _frameIdx (configured a x) = _frameIdx x /\
  totalTime (configured a x) = totalTime x /\
  frames (configured a x) = frames x.
Proof. unfold configured. destruct (find_animation _ a); repeat split. Qed.


(** X3.  For a recorder that the context already has, [initAnimationCache]
    returns that recorder and leaves the registry, the contexts and every
    other recorder as they are; it constructs no engine instance.  What the
    recorder has baked is kept: its frames, frame index, elapsed time and
    its completed, invalid and private flags are unchanged. *)
Theorem X3_initAnimationCache_again sc uuid asset spData a w i inf r x :
  getRuntimeData asset = Some spData ->
  _skeletonCache sc !! uuid = Some i ->
  infos w !! i = Some inf ->
  animationsCache inf !! a = Some r ->
  caches w !! r = Some x ->
  exists w' x',
    initAnimationCache sc uuid asset a w = Done (Some r, sc) w' /\
    caches w' !! r = Some x' /\
    infos w' = infos w /\
    instances w' = instances w /\
    (forall r', r' <> r -> caches w' !! r' = caches w !! r') /\
    frames x' = frames x /\
    _frameIdx x' = _frameIdx x /\
    totalTime x' = totalTime x /\
    isCompleted x' = isCompleted x /\
    _invalid x' = _invalid x /\
    _privateMode x' = _privateMode x.
Proof.
  intros Hdata Hsc Hinf Hr Hx.
  eexists _, (configured a (bound i a x)). split.
  { eapply initAnimationCache_found; eassumption. }
  split; [cbn [caches set_caches set_warnings]; apply lookup_insert_eq|].
  split; [reflexivity|]. split; [reflexivity|].
  split.
  { intros r' Hne. cbn [caches set_caches set_warnings].
    apply lookup_insert_ne. congruence. }
  destruct (configured_kept a (bound i a x))
    as (_ & _ & _ & -> & -> & -> & -> & -> & ->).
  repeat split.
Qed.


(** X5.  [enablePrivateMode] is not retroactive: a recorder that the
    context or the pool already has is returned by [initAnimationCache]
    with the private-mode flag that it had, while the registry is in
    private mode. *)
Theorem X5_enablePrivateMode_not_retroactive sc uuid asset spData a w i inf r x :
  getRuntimeData asset = Some spData ->
  _skeletonCache sc !! uuid = Some i ->
  infos w !! i = Some inf ->
  animationsCache inf !! a = Some r \/
  (animationsCache inf !! a = None /\
   _animationPool sc !! poolKey uuid a = Some r) ->
  caches w !! r = Some x ->
  exists sc' w' x',
    sc_privateMode (enablePrivateMode sc) = true /\
    initAnimationCache (enablePrivateMode sc) uuid asset a w =
      Done (Some r, sc') w' /\
    sc_privateMode sc' = true /\
    caches w' !! r = Some x' /\
    _privateMode x' = _privateMode x.
Proof.
  intros Hdata Hsc Hinf [Hr|[Hr Hp]] Hx.
  - eexists _, _, (configured a (bound i a x)).
    split; [reflexivity|]. split.
    { eapply initAnimationCache_found; eassumption. }
    split; [reflexivity|].
    split; [cbn [caches set_caches set_warnings]; apply lookup_insert_eq|].
    now destruct (configured_kept a (bound i a x)) as (_ & _ & _ & -> & _).
  - eexists _, _, (configured a (bound i a x)).
    split; [reflexivity|]. split.
    { eapply initAnimationCache_pooled; eassumption. }
    split; [reflexivity|].
    split; [cbn [caches set_caches set_warnings]; apply lookup_insert_eq|].
    now destruct (configured_kept a (bound i a x)) as (_ & _ & _ & -> & _).
Qed.

(** ** The loops over the recorders of a context *)

Lemma removeSkeleton_spec sc uuid w i inf :
  _skeletonCache sc !! uuid = Some i ->
  infos w !! i = Some inf ->
  all_stored (animationsCache inf) w ->
  removeSkeleton sc uuid w =
  Done (set_skeletonCache (delete uuid (_skeletonCache sc))
          (set_animationPool
             (fold_left (fun p kv => <[poolKey uuid kv.1 := kv.2]> p)
                (map_to_list (animationsCache inf)) (_animationPool sc)) sc))
       (set_caches
          (fold_left (fun m kv => alter cleared kv.2 m)
             (map_to_list (animationsCache inf)) (caches w)) w).
Proof.
  intros Hsc Hinf Hall. unfold removeSkeleton. rewrite Hsc.
  rewrite (bind_Done _ _ _ _ _ (getInfo_Some _ _ _ Hinf)).
  unfold for_in.
  erewrite bind_Done; [reflexivity|].
  apply removeSkeleton_loop.
  intros [k r] Hkr. apply (Hall k). now apply elem_of_map_to_list.
Qed.

Lemma fold_pool_key uuid (l : list (string * cref))
    (pool : gmap string cref) (key : string) :
  (forall k, k ∈ l.*1 -> key <> poolKey uuid k) ->
  fold_left (fun p kv => <[poolKey uuid kv.1 := kv.2]> p) l pool !! key =
  pool !! key.
Proof.
  revert pool. induction l as [|[k0 r0] l IH]; intros pool Hk; [reflexivity|].
  cbn [fold_left fst snd].
  rewrite IH by (intros k Hin; apply Hk; cbn; now right).
  apply lookup_insert_ne. intros E. apply (Hk k0); [cbn; left|now symmetry].
Qed.

Lemma elem_of_values (m : gmap string cref) (r : cref) :
  r ∈ (map_to_list m).*2 <-> exists k, m !! k = Some r.
Proof.
  rewrite list_elem_of_fmap. split.
  - intros ([k r'] & -> & Hin). exists k. now apply elem_of_map_to_list.
  - intros [k Hk]. exists (k, r). split; [reflexivity|].
    now apply elem_of_map_to_list.
Qed.

Lemma elem_of_keys (m : gmap string cref) (k : string) :
  k ∈ (map_to_list m).*1 <-> is_Some (m !! k).
Proof.
  rewrite list_elem_of_fmap. split.
  - intros ([k' r] & -> & Hin). exists r. now apply elem_of_map_to_list.
  - intros [r Hr]. exists (k, r). split; [reflexivity|].
    now apply elem_of_map_to_list.
Qed.

(** X6.  [removeSkeleton] of a known uuid drops that context from the
    registry and nothing else: the other contexts stay, every recorder of
    the context is in the pool under its key [uuid#name] (replacing what
    the pool had under that key), the other pool keys are as before, the
    recorders of the context are cleared and no other recorder is touched.
    Nothing is destroyed.  A second [removeSkeleton] of the same uuid
    changes nothing. *)
Theorem X6_removeSkeleton_moves_to_pool sc uuid w i inf :
  _skeletonCache sc !! uuid = Some i ->
  infos w !! i = Some inf ->
  all_stored (animationsCache inf) w ->
  exists sc' w',
    removeSkeleton sc uuid w = Done sc' w' /\
    _skeletonCache sc' !! uuid = None /\
    (forall u, u <> uuid -> _skeletonCache sc' !! u = _skeletonCache sc !! u) /\
    (forall k r, animationsCache inf !! k = Some r ->
                 _animationPool sc' !! poolKey uuid k = Some r) /\
    (forall key,
        (forall k, is_Some (animationsCache inf !! k) ->
                   key <> poolKey uuid k) ->
        _animationPool sc' !! key = _animationPool sc !! key) /\
    (forall k r x, animationsCache inf !! k = Some r ->
                   caches w !! r = Some x ->
                   caches w' !! r = Some (cleared x)) /\
    (forall r, (forall k, animationsCache inf !! k <> Some r) ->
               caches w' !! r = caches w !! r) /\
    infos w' = infos w /\
    destroyed w' = destroyed w /\
    instances w' = instances w /\
    removeSkeleton sc' uuid w' = Done sc' w'.
Proof.
  intros Hsc Hinf Hall.
  eexists _, _. split; [eapply removeSkeleton_spec; eassumption|].
  cbn [_skeletonCache _animationPool set_skeletonCache set_animationPool
       caches infos destroyed instances set_caches].
  split; [apply lookup_delete_eq|].
  split; [intros u Hu; apply lookup_delete_ne; congruence|].
  split.
  { intros k r Hk. apply fold_pool_lookup.
    - apply NoDup_fst_map_to_list.
    - now apply elem_of_map_to_list. }
  split.
  { intros key Hkey. apply fold_pool_key.
    intros k Hk. apply Hkey. now apply elem_of_keys. }
  split.
  { intros k r x Hk Hx. rewrite fold_alter_lookup.
    destruct (decide _) as [_|Hn]; [now rewrite Hx|].
    exfalso. apply Hn. apply elem_of_values. now exists k. }
  split.
  { intros r Hr. rewrite fold_alter_lookup.
    destruct (decide _) as [Hin|_]; [|reflexivity].
    apply elem_of_values in Hin. destruct Hin as [k Hk].
    now destruct (Hr k). }
  do 3 (split; [reflexivity|]).
  unfold removeSkeleton.
  cbn [_skeletonCache set_skeletonCache set_animationPool].
  now rewrite lookup_delete_eq.
Qed.

Lemma invalidAllFrame_Some r w y :
  caches w !! r = Some y ->
  invalidAllFrame r w = Done tt (set_caches (alter invalidated r (caches w)) w).
Proof.
  intros Hy. unfold invalidAllFrame.
  rewrite (modCache_Some _ _ _ _ Hy).
  f_equal. apply world_eq; cbn; try reflexivity.
  apply map_eq. intros j.
  destruct (decide (r = j)) as [<-|Hne].
  - now rewrite lookup_insert_eq, lookup_alter_eq, Hy.
  - now rewrite lookup_insert_ne, lookup_alter_ne by exact Hne.
Qed.

Lemma invalidAnimationCache_loop (l : list (string * cref)) :
  forall w,
    (forall kv, kv ∈ l -> is_Some (caches w !! kv.2)) ->
    foldM (fun (_ : unit) kv => invalidAllFrame (snd kv)) l tt w =
    Done tt
      (set_caches
         (fold_left (fun m kv => alter invalidated kv.2 m) l (caches w)) w).
Proof.
  induction l as [|[k r] l IH]; intros w Hall.
  - cbn. unfold ret. now rewrite set_caches_id.
  - cbn [foldM fold_left fst snd].
    destruct (Hall (k, r)) as [y Hy]; [left|]. cbn in Hy.
    rewrite (bind_Done _ _ _ _ _ (invalidAllFrame_Some _ _ _ Hy)).
    rewrite IH.
    + f_equal.
    + intros kv Hkv. cbn [caches set_caches].
      destruct (Hall kv) as [z Hz]; [now right|].
      destruct (decide (r = kv.2)) as [E|Hne].
      * rewrite <- E, lookup_alter_eq, Hy. eauto.
      * rewrite lookup_alter_ne by exact Hne. eauto.
Qed.

Lemma fold_invalidated_lookup (l : list (string * cref))
    (m : gmap cref AnimationCache) (r : cref) :
  fold_left (fun m kv => alter invalidated kv.2 m) l m !! r =
  if decide (r ∈ l.*2) then invalidated <$> m !! r else m !! r.
Proof.
  revert m. induction l as [|[k r0] l IH]; intros m.
  - cbn. destruct (decide _) as [H|_]; [inversion H|reflexivity].
  - cbn [fold_left snd fmap list_fmap]. rewrite IH.
    destruct (decide (r0 = r)) as [->|Hne].
    + rewrite lookup_alter_eq.
      destruct (decide (r ∈ r :: l.*2)) as [_|Hn]; [|exfalso; apply Hn; left].
      destruct (decide (r ∈ l.*2)); [|reflexivity].
      now destruct (m !! r).
    + rewrite lookup_alter_ne by exact Hne.
      destruct (decide (r ∈ l.*2)) as [Hin|Hn];
        destruct (decide (r ∈ r0 :: l.*2)) as [Hin'|Hn']; try reflexivity.
      * exfalso. apply Hn'. now right.
      * exfalso. apply elem_of_cons in Hin'.
        destruct Hin' as [E|Hin']; [congruence|contradiction].
Qed.

(** X7.  [invalidAnimationCache] of a known uuid marks every recorder of
    that context invalid and not completed, and keeps what each has baked
    (frames, frame index, elapsed time) and that it is initialised; the
    recorders outside the context, the contexts and the registry's pool are
    not touched.  For a uuid without a context it does nothing. *)
Theorem X7_invalidAnimationCache_marks_all sc uuid w :
  (forall i, _skeletonCache sc !! uuid = Some i ->
             exists inf, infos w !! i = Some inf /\
                         all_stored (animationsCache inf) w) ->
  exists w',
    invalidAnimationCache sc uuid w = Done tt w' /\
    infos w' = infos w /\
    destroyed w' = destroyed w /\
    (_skeletonCache sc !! uuid = None -> w' = w) /\
    (forall i inf, _skeletonCache sc !! uuid = Some i ->
                   infos w !! i = Some inf ->
       (forall k r x, animationsCache inf !! k = Some r ->
                      caches w !! r = Some x ->
          exists x', caches w' !! r = Some x' /\
                     _invalid x' = true /\ isCompleted x' = false /\
                     frames x' = frames x /\ _frameIdx x' = _frameIdx x /\
                     totalTime x' = totalTime x /\ _inited x' = _inited x) /\
       (forall r, (forall k, animationsCache inf !! k <> Some r) ->
                  caches w' !! r = caches w !! r)).
Proof.
  intros Hctx. unfold invalidAnimationCache.
  destruct (_skeletonCache sc !! uuid) as [i|] eqn:Hsc.
  2:{ exists w. split; [reflexivity|]. do 3 (split; [reflexivity|]).
      intros i inf E. discriminate E. }
  destruct (Hctx i eq_refl) as (inf & Hinf & Hall).
  rewrite (bind_Done _ _ _ _ _ (getInfo_Some _ _ _ Hinf)).
  unfold for_in. rewrite invalidAnimationCache_loop.
  2:{ intros [k r] Hkr. apply (Hall k). now apply elem_of_map_to_list. }
  eexists. split; [reflexivity|]. do 2 (split; [reflexivity|]).
  split; [discriminate|].
  intros i' inf' E Hinf'. injection E as <-.
  rewrite Hinf in Hinf'. injection Hinf' as <-.
  cbn [caches set_caches]. split.
  - intros k r x Hk Hx. exists (invalidated x).
    split; [|repeat split].
    rewrite fold_invalidated_lookup.
    destruct (decide _) as [_|Hn]; [now rewrite Hx|].
    exfalso. apply Hn. apply elem_of_values. now exists k.
  - intros r Hr. rewrite fold_invalidated_lookup.
    destruct (decide _) as [Hin|_]; [|reflexivity].
    apply elem_of_values in Hin. destruct Hin as [k Hk].
    now destruct (Hr k).
Qed.

(** ** The loop of [destroyCachedAnimations] *)

Lemma destroy_loop (p : string -> bool) (l : list (string * cref)) :
  forall (pool : gmap string cref) w,
    (forall kv, kv ∈ l -> is_Some (caches w !! kv.2)) ->
    foldM (fun pool kv =>
             if p (fst kv) then destory (snd kv) ;; ret (delete (fst kv) pool)
             else ret pool) l pool w =
    Done (fold_left (fun pool kv => if p kv.1 then delete kv.1 pool else pool)
            l pool)
         (set_destroyed
            (fold_left (fun d kv => if p kv.1 then kv.2 :: d else d)
               l (destroyed w)) w).
Proof.
  induction l as [|[k r] l IH]; intros pool w Hall.
  - cbn. unfold ret. now destruct w.
  - cbn [foldM fold_left fst snd].
    destruct (Hall (k, r)) as [y Hy]; [left|]. cbn in Hy.
    assert (Hrest : forall kv, kv ∈ l -> is_Some (caches w !! kv.2))
      by (intros kv Hkv; apply Hall; now right).
    destruct (p k).
    + unfold bind at 1. unfold bind at 1. unfold destory at 1.
      rewrite (bind_Done _ _ _ _ _ (getCache_Some _ _ _ Hy)).
      unfold ret at 1. rewrite IH by exact Hrest.
      f_equal.
    + unfold bind at 1. unfold ret at 1. now rewrite IH by exact Hrest.
Qed.

Lemma fold_delete_lookup (p : string -> bool) (l : list (string * cref))
    (pool : gmap string cref) (key : string) :
  fold_left (fun pool kv => if p kv.1 then delete kv.1 pool else pool) l pool
    !! key =
  if decide (p key = true /\ key ∈ l.*1) then None else pool !! key.
Proof.
  revert pool. induction l as [|[k0 r0] l IH]; intros pool.
  - cbn. destruct (decide _) as [[_ H]|_]; [inversion H|reflexivity].
  - cbn [fold_left fst snd fmap list_fmap]. rewrite IH.
    destruct (decide (p key = true /\ key ∈ l.*1)) as [[Hp Hin]|Hn].
    + destruct (decide _) as [_|Hn']; [reflexivity|].
      exfalso. apply Hn'. split; [exact Hp|now right].
    + destruct (decide (p key = true /\ key ∈ k0 :: l.*1)) as [[Hp Hin]|Hn'].
      * apply elem_of_cons in Hin. destruct Hin as [->|Hin].
        -- rewrite Hp. apply lookup_delete_eq.
        -- exfalso. apply Hn. now split.
      * destruct (p k0) eqn:Hp0; [|reflexivity].
        apply lookup_delete_ne. intros ->.
        apply Hn'. split; [exact Hp0|left].
Qed.

Lemma fold_destroyed_elem (p : string -> bool) (l : list (string * cref))
    (d : list cref) (r : cref) :
  r ∈ fold_left (fun d kv => if p kv.1 then kv.2 :: d else d) l d <->
  r ∈ d \/ exists k, (k, r) ∈ l /\ p k = true.
Proof.
  revert d. induction l as [|[k0 r0] l IH]; intros d.
  - cbn. split; [now left|]. intros [H|(k & H & _)]; [exact H|inversion H].
  - cbn [fold_left fst snd]. rewrite IH. split.
    + intros [H|(k & Hin & Hp)].
      * destruct (p k0) eqn:Hp0; [|now left].
        apply elem_of_cons in H. destruct H as [->|H]; [|now left].
        right. exists k0. split; [left|exact Hp0].
      * right. exists k. split; [now right|exact Hp].
    + intros [H|(k & Hin & Hp)].
      * left. destruct (p k0); [now right|exact H].
      * apply elem_of_cons in Hin. destruct Hin as [E|Hin].
        -- injection E as -> ->. left. rewrite Hp. left.
        -- right. exists k. now split.
Qed.

Lemma prefix_append (s t : string) : String.prefix s (s +:+ t) = true.
Proof.
  induction s as [|ch s IH]; [now destruct t|].
  change (String.prefix (String ch s) (String ch (s +:+ t)) = true).
  cbn [String.prefix].
  destruct (Ascii.ascii_dec ch ch); [exact IH|congruence].
Qed.

Lemma includes_poolKey uuid a : includes (poolKey uuid a) uuid = true.
Proof.
  unfold poolKey.
  destruct (uuid +:+ "#" +:+ a)%string eqn:E; cbn [includes];
    rewrite <- E, prefix_append; reflexivity.
Qed.

Lemma destroyCachedAnimations_spec sc uuid w (p : string -> bool) :
  all_stored (_animationPool sc) w ->
  match uuid with
  | Some (String _ _ as u) => p = (fun key => includes key u)
  | _ => p = (fun _ => true)
  end ->
  destroyCachedAnimations sc uuid w =
  Done (set_animationPool
          (fold_left (fun pool kv => if p kv.1 then delete kv.1 pool else pool)
             (map_to_list (_animationPool sc)) (_animationPool sc)) sc)
       (set_destroyed
          (fold_left (fun d kv => if p kv.1 then kv.2 :: d else d)
             (map_to_list (_animationPool sc)) (destroyed w)) w).
Proof.
  intros Hall Hp.
  assert (Hl : forall kv, kv ∈ map_to_list (_animationPool sc) ->
                          is_Some (caches w !! kv.2)).
  { intros [k r] Hkr. apply (Hall k). now apply elem_of_map_to_list. }
  unfold destroyCachedAnimations, for_in.
  destruct uuid as [[|ch u]|]; subst p;
    (erewrite bind_Done; [reflexivity|]).
  - exact (destroy_loop (fun _ => true) _ _ _ Hl).
  - exact (destroy_loop (fun key => includes key (String ch u)) _ _ _ Hl).
  - exact (destroy_loop (fun _ => true) _ _ _ Hl).
Qed.

(** X8.  [destroyCachedAnimations] without a uuid, or with the empty
    string (which is falsy), empties the pool and destroys every recorder
    that was in it, and only those; the contexts of the registry and the
    recorders in the store are left as they are. *)
Theorem X8_destroyCachedAnimations_all sc uuid w :
  uuid = None \/ uuid = Some ""%string ->
  all_stored (_animationPool sc) w ->
  exists sc' w',
    destroyCachedAnimations sc uuid w = Done sc' w' /\
    _animationPool sc' = ∅ /\
    _skeletonCache sc' = _skeletonCache sc /\
    caches w' = caches w /\
    infos w' = infos w /\
    (forall r, r ∈ destroyed w' <->
               r ∈ destroyed w \/ exists key, _animationPool sc !! key = Some r).
Proof.
  intros Hu Hall.
  eexists _, _. split.
  { apply (destroyCachedAnimations_spec sc uuid w (fun _ => true) Hall).
    now destruct Hu as [->| ->]. }
  cbn [_animationPool _skeletonCache set_animationPool caches infos destroyed
       set_destroyed].
  split.
  { apply map_eq. intros key.
    pose proof (fold_delete_lookup (fun _ => true)
                  (map_to_list (_animationPool sc)) (_animationPool sc) key)
      as H.
    cbv beta in H |- *. rewrite H, lookup_empty.
    destruct (decide _) as [_|Hn]; [reflexivity|].
    destruct (_animationPool sc !! key) as [r|] eqn:E; [|reflexivity].
    exfalso. apply Hn. split; [reflexivity|]. apply elem_of_keys. eauto. }
  do 3 (split; [reflexivity|]).
  intros r.
  pose proof (fold_destroyed_elem (fun _ => true)
                (map_to_list (_animationPool sc)) (destroyed w) r) as H.
  cbv beta in H |- *. rewrite H. split.
  - intros [H'|(k & Hin & _)]; [now left|].
    right. exists k. now apply elem_of_map_to_list.
  - intros [H'|(k & Hk)]; [now left|].
    right. exists k. split; [now apply elem_of_map_to_list|reflexivity].
Qed.

(** X9.  [destroyCachedAnimations] with a non-empty uuid removes from the
    pool exactly the keys that contain the uuid as a substring, and
    destroys exactly the recorders pooled under those keys.  In particular
    no key [uuid#name] of that uuid is left in the pool.  The contexts and
    the recorders in the store are left as they are. *)
Theorem X9_destroyCachedAnimations_uuid sc uuid w :
  uuid <> ""%string ->
  all_stored (_animationPool sc) w ->
  exists sc' w',
    destroyCachedAnimations sc (Some uuid) w = Done sc' w' /\
    (forall key, _animationPool sc' !! key =
                 if includes key uuid then None
                 else _animationPool sc !! key) /\
    (forall a, getAnimationCache sc' uuid a = None) /\
    _skeletonCache sc' = _skeletonCache sc /\
    caches w' = caches w /\
    infos w' = infos w /\
    (forall r, r ∈ destroyed w' <->
               r ∈ destroyed w \/
               exists key, _animationPool sc !! key = Some r /\
                           includes key uuid = true).
Proof.
  intros Hu Hall.
  eexists _, _. split.
  { apply (destroyCachedAnimations_spec sc (Some uuid) w
             (fun key => includes key uuid) Hall).
    destruct uuid; [congruence|reflexivity]. }
  cbn [_animationPool _skeletonCache set_animationPool caches infos destroyed
       set_destroyed].
  assert (Hpool : forall key,
    fold_left (fun pool kv =>
                 if includes kv.1 uuid then delete kv.1 pool else pool)
      (map_to_list (_animationPool sc)) (_animationPool sc) !! key =
    if includes key uuid then None else _animationPool sc !! key).
  { intros key.
    pose proof (fold_delete_lookup (fun key => includes key uuid)
                  (map_to_list (_animationPool sc)) (_animationPool sc) key)
      as H.
    cbv beta in H. rewrite H.
    destruct (decide _) as [[-> _]|Hn]; [reflexivity|].
    destruct (includes key uuid) eqn:Hi; [|reflexivity].
    destruct (_animationPool sc !! key) as [r|] eqn:E; [|reflexivity].
    exfalso. apply Hn. split; [reflexivity|]. apply elem_of_keys. eauto. }
  cbv beta.
  split; [exact Hpool|].
  split.
  { intros a. unfold getAnimationCache. cbn [_animationPool set_animationPool].
    now rewrite Hpool, includes_poolKey. }
  do 3 (split; [reflexivity|]).
  intros r.
  pose proof (fold_destroyed_elem (fun key => includes key uuid)
                (map_to_list (_animationPool sc)) (destroyed w) r) as H.
  cbv beta in H. rewrite H.
  split.
  - intros [H'|(k & Hin & Hp)]; [now left|].
    right. exists k. split; [now apply elem_of_map_to_list|exact Hp].
  - intros [H'|(k & Hk & Hp)]; [now left|].
    right. exists k. split; [now apply elem_of_map_to_list|exact Hp].
Qed.

(** ** [end], [invalidAnimationFrames], [enableCacheAttachedInfo], [clear] *)

Lemma arr_get_set_length {A} (arr : JSArray A) (n : nat) (j : Z) :
  0 <= j ->
  arr_get (arr_set_length arr n) (Some j) =
  if (Z.to_nat j <? n)%nat then arr_get arr (Some j) else None.
Proof.
  intros Hj. unfold arr_get.
  destruct (j <? 0) eqn:Hneg; [apply Z.ltb_lt in Hneg; lia|].
  destruct (Nat.ltb_spec (Z.to_nat j) n) as [Hlt|Hge].
  - unfold arr_set_length, JSArray in *.
    destruct (Nat.lt_ge_cases (Z.to_nat j) (length arr)) as [Hin|Hout].
    + rewrite lookup_app_l by (rewrite length_take; lia).
      now rewrite lookup_take_lt.
    + rewrite (lookup_ge_None_2 arr) by exact Hout.
      destruct ((take n arr ++ replicate (n - length arr) None)
                  !! Z.to_nat j) as [[v|]|] eqn:E; try reflexivity.
      exfalso. apply lookup_app_Some in E.
      destruct E as [E|[_ E]].
      * apply lookup_lt_Some in E. rewrite length_take in E. lia.
      * apply lookup_replicate in E. now destruct E.
  - unfold JSArray in *. rewrite lookup_ge_None_2; [reflexivity|].
    rewrite (length_arr_set_length arr n). exact Hge.
Qed.

(** X10.  [end] on a recorder that still has to be updated does nothing.
    On a recorder that has not (it is completed, or at the time cap) it
    marks the recorder completed, cuts [frames] to the [_frameIdx + 1]
    frames baked in this pass, keeping each of them, and leaves the context
    without an active recorder and without a listener, whichever recorder
    was the active one.  No other recorder is touched and the context keeps
    its recorders. *)
Theorem X10_end_when_finished this w x i inf :
  caches w !! this = Some x ->
  _skeletonInfo x = Some i ->
  infos w !! i = Some inf ->
  -1 <= _frameIdx x ->
  exists w',
    end_ this w = Done tt w' /\
    (needToUpdate x None = true -> w' = w) /\
    (needToUpdate x None = false ->
     exists x' inf',
       caches w' !! this = Some x' /\
       infos w' !! i = Some inf' /\
       isCompleted x' = true /\
       Z.of_nat (length (frames x')) = _frameIdx x + 1 /\
       (forall j, 0 <= j ->
          arr_get (frames x') (Some j) =
          if j <=? _frameIdx x then arr_get (frames x) (Some j) else None) /\
       _frameIdx x' = _frameIdx x /\
       _invalid x' = _invalid x /\
       curAnimationCache inf' = None /\
       listener inf' = None /\
       animationsCache inf' = animationsCache inf /\
       (forall r, r <> this -> caches w' !! r = caches w !! r)).
Proof.
  intros Hx Hi Hinf Hf.
  destruct (needToUpdate x None) eqn:Hneed.
  - exists w. split.
    + unfold end_. rewrite (bind_Done _ _ _ _ _ (getCache_Some _ _ _ Hx)).
      now rewrite Hneed.
    + split; [reflexivity|discriminate].
  - eexists. split; [apply (end_done this w x i inf Hx Hneed Hi Hinf Hf)|].
    split; [discriminate|]. intros _.
    eexists _, _.
    split; [cbn [caches set_infos set_caches]; apply lookup_insert_eq|].
    split; [cbn [infos set_infos set_caches]; apply lookup_insert_eq|].
    split; [reflexivity|].
    cbn [frames set_isCompleted set_frames].
    split; [rewrite length_arr_set_length; lia|].
    split.
    { intros j Hj. rewrite arr_get_set_length by exact Hj.
      destruct (Nat.ltb_spec (Z.to_nat j) (Z.to_nat (_frameIdx x + 1)));
        destruct (Z.leb_spec j (_frameIdx x)); try reflexivity; lia. }
    do 5 (split; [reflexivity|]).
    intros r Hr. cbn [caches set_infos set_caches].
    apply lookup_insert_ne. congruence.
Qed.

Lemma updateToFrame_idle depth this target w x :
  caches w !! this = Some x ->
  _inited x = false \/ (_invalid x = false /\ needToUpdate x target = false) ->
  updateToFrame (S depth) this target w = Done tt w.
Proof.
  intros Hx H. cbn [updateToFrame].
  rewrite (bind_Done _ _ _ _ _ (getCache_Some _ _ _ Hx)).
  destruct (_inited x) eqn:Hin; cbn [negb]; [|reflexivity].
  destruct H as [H|[Hinv Hneed]]; [discriminate|].
  rewrite (bind_Done _ _ _ _ _ (begin_with_valid _ _ _ _ Hx Hinv)).
  rewrite (bind_Done _ _ _ _ _ (getCache_Some _ _ _ Hx)).
  now rewrite Hneed.
Qed.

Lemma getFrame_no_frames x i : frames x = [] -> getFrame x i = None.
Proof.
  intros E. unfold getFrame. rewrite E.
  destruct (js_rem i (_maxFrameIdex x)) as [z|]; [|reflexivity].
  cbn. now destruct (z <? 0).
Qed.

(** X11.  [invalidAnimationFrames] empties [frames] but resets neither
    [isCompleted] nor [_invalid]: on a recorder that is completed and not
    invalid, no later [updateToFrame] bakes anything, whatever its target,
    and [getFrame] has no frame for any index. *)
Theorem X11_invalidAnimationFrames_no_rebake this w x :
  caches w !! this = Some x ->
  _invalid x = false ->
  isCompleted x = true ->
  exists w1 x1,
    invalidAnimationFrames this w = Done tt w1 /\
    caches w1 !! this = Some x1 /\
    frames x1 = [] /\
    isCompleted x1 = true /\
    _invalid x1 = false /\
    (forall i, getFrame x1 i = None) /\
    (forall depth target, updateToFrame (S depth) this target w1 = Done tt w1).
Proof.
  intros Hx Hinv Hc.
  eexists _, _. split.
  { unfold invalidAnimationFrames. apply (modCache_Some _ _ _ _ Hx). }
  split; [cbn [caches set_caches]; apply lookup_insert_eq|].
  split; [reflexivity|]. split; [exact Hc|]. split; [exact Hinv|].
  split; [intros i; now apply getFrame_no_frames|].
  intros depth target. eapply updateToFrame_idle.
  - cbn [caches set_caches]. apply lookup_insert_eq.
  - right. split; [exact Hinv|]. now apply needToUpdate_completed.
Qed.

(** X12.  [enableCacheAttachedInfo] invalidates the recorder the first
    time only: when the flag was off it is set and the recorder becomes
    invalid and not completed, its frames kept; when the flag was on
    nothing changes.  Hence a second call never changes anything. *)
Theorem X12_enableCacheAttachedInfo_once this w x :
  caches w !! this = Some x ->
  exists w1 x1,
    enableCacheAttachedInfo this w = Done tt w1 /\
    caches w1 !! this = Some x1 /\
    _enableCacheAttachedInfo x1 = true /\
    frames x1 = frames x /\
    _frameIdx x1 = _frameIdx x /\
    (_enableCacheAttachedInfo x = false ->
     _invalid x1 = true /\ isCompleted x1 = false) /\
    (_enableCacheAttachedInfo x = true -> w1 = w) /\
    enableCacheAttachedInfo this w1 = Done tt w1.
Proof.
  intros Hx. unfold enableCacheAttachedInfo at 1.
  rewrite (bind_Done _ _ _ _ _ (getCache_Some _ _ _ Hx)).
  destruct (_enableCacheAttachedInfo x) eqn:Hflag; cbn [negb].
  - exists w, x. split; [reflexivity|]. split; [exact Hx|].
    split; [exact Hflag|]. do 2 (split; [reflexivity|]).
    split; [discriminate|]. split; [reflexivity|].
    unfold enableCacheAttachedInfo.
    rewrite (bind_Done _ _ _ _ _ (getCache_Some _ _ _ Hx)).
    now rewrite Hflag.
  - unfold bind at 1. unfold putCache at 1. unfold invalidAllFrame.
    erewrite modCache_Some
      by (cbn [caches set_caches]; apply lookup_insert_eq).
    eexists _, _. split; [reflexivity|].
    split; [cbn [caches set_caches]; apply lookup_insert_eq|].
    do 3 (split; [reflexivity|]).
    split; [intros _; split; reflexivity|].
    split; [discriminate|].
    unfold enableCacheAttachedInfo.
    erewrite bind_Done
      by (apply getCache_Some; cbn [caches set_caches];
          apply lookup_insert_eq).
    reflexivity.
Qed.

(** X13.  A recorder that has been cleared (as [removeSkeleton] does
    before pooling it) keeps its frames, so [getFrame] answers as before,
    but it cannot bake: [updateToFrame] does nothing, whatever its target,
    until [init] is called again. *)
Theorem X13_cleared_recorder_is_idle this w x :
  caches w !! this = Some x ->
  exists w1,
    clear this w = Done tt w1 /\
    caches w1 !! this = Some (cleared x) /\
    (forall r, r <> this -> caches w1 !! r = caches w !! r) /\
    infos w1 = infos w /\
    (forall i, getFrame (cleared x) i = getFrame x i) /\
    (forall depth target, updateToFrame (S depth) this target w1 = Done tt w1).
Proof.
  intros Hx. eexists. split; [apply (clear_Some _ _ _ Hx)|].
  assert (Hc : alter cleared this (caches w) !! this = Some (cleared x))
    by now rewrite lookup_alter_eq, Hx.
  cbn [caches infos set_caches].
  split; [exact Hc|].
  split; [intros r Hr; apply lookup_alter_ne; congruence|].
  do 2 (split; [reflexivity|]).
  intros depth target. eapply updateToFrame_idle.
  - cbn [caches set_caches]. exact Hc.
  - now left.
Qed.

(** ** The registry after [clear], and the keys of the pool *)

(** X14.  [clear] of the registry forgets every context and every pooled
    recorder without destroying any: afterwards no uuid has a context, so
    [initAnimationCache] returns [null], [removeSkeleton] and
    [invalidAnimationCache] do nothing, the pool has no recorder for any
    key, and [destroyCachedAnimations] finds nothing to destroy.  The
    private-mode flag is kept. *)
Theorem X14_clear_forgets_without_destroying sc uuid asset a w :
  initAnimationCache (clear_registry sc) uuid asset a w =
    Done (None, clear_registry sc) w /\
  getAnimationCache (clear_registry sc) uuid a = None /\
  removeSkeleton (clear_registry sc) uuid w = Done (clear_registry sc) w /\
  invalidAnimationCache (clear_registry sc) uuid w = Done tt w /\
  (forall u, destroyCachedAnimations (clear_registry sc) u w =
             Done (clear_registry sc) w) /\
  sc_privateMode (clear_registry sc) = sc_privateMode sc.
Proof.
  split.
  { unfold initAnimationCache. destruct (getRuntimeData asset); [|reflexivity].
    cbn [_skeletonCache clear_registry]. now rewrite lookup_empty. }
  split; [apply lookup_empty|].
  split.
  { unfold removeSkeleton. cbn [_skeletonCache clear_registry].
    now rewrite lookup_empty. }
  split.
  { unfold invalidAnimationCache. cbn [_skeletonCache clear_registry].
    now rewrite lookup_empty. }
  split; [|reflexivity].
  intros u. unfold destroyCachedAnimations, for_in.
  cbn [_animationPool clear_registry]. rewrite map_to_list_empty.
  destruct u as [[|ch u]|]; reflexivity.
Qed.

(** X15.  The pool keys [uuid#name] tell the pairs apart as long as the
    uuids hold no ['#']: two pairs with the same key are the same pair. *)
Theorem X15_poolKey_injective u1 a1 u2 a2 :
  hash_free u1 = true ->
  hash_free u2 = true ->
  poolKey u1 a1 = poolKey u2 a2 ->
  u1 = u2 /\ a1 = a2.
Proof.
  unfold poolKey. revert u2.
  induction u1 as [|c1 u1 IH]; intros [|c2 u2] H1 H2 E.
  - change (String "#" a1 = String "#" a2) in E.
    injection E as ->. now split.
  - exfalso.
    change (String "#" a1 = String c2 (u2 +:+ "#" +:+ a2))%string in E.
    cbn in H2. injection E as <- _.
    now rewrite Ascii.eqb_refl in H2.
  - exfalso.
    change (String c1 (u1 +:+ "#" +:+ a1) = String "#" a2)%string in E.
    cbn in H1. injection E as -> _.
    now rewrite Ascii.eqb_refl in H1.
  - cbn in H1, H2. apply andb_true_iff in H1, H2.
    change (String c1 (u1 +:+ "#" +:+ a1) = String c2 (u2 +:+ "#" +:+ a2))%string
      in E.
    injection E as -> E.
    destruct (IH u2 (proj2 H1) (proj2 H2) E) as [-> ->]. now split.
Qed.

(** ** What a bake does to the rest of the store *)

Lemma only_caches_refl w : only_caches w w.
Proof. now repeat split. Qed.

Lemma only_caches_trans w1 w2 w3 :
  only_caches w1 w2 -> only_caches w2 w3 -> only_caches w1 w3.
Proof.
  intros (A1 & A2 & A3 & A4) (B1 & B2 & B3 & B4).
  repeat split; congruence.
Qed.

Lemma fire_complete_only_caches info e w :
  only_caches w (fire_complete info w e).
Proof.
  unfold fire_complete, completeHandle.
  destruct info as [i|]; [|apply only_caches_refl].
  destruct (infos w !! i) as [inf|]; [|apply only_caches_refl].
  destruct (listener inf) as [h|]; [|apply only_caches_refl].
  destruct e as [n|]; [|apply only_caches_refl].
  destruct (caches w !! h) as [y|]; [|apply only_caches_refl].
  destruct (decide _); now repeat split.
Qed.

Lemma dispatch_only_caches info es :
  forall w, only_caches w (fold_left (fire_complete info) es w).
Proof.
  induction es as [|e es IH]; intros w; [apply only_caches_refl|].
  cbn [fold_left]. eapply only_caches_trans; [|apply IH].
  apply fire_complete_only_caches.
Qed.

Lemma bake_frame_effect this w x :
  caches w !! this = Some x ->
  exists w' x',
    bake_frame this w = Done tt w' /\
    caches w' !! this = Some x' /\
    _inited x' = _inited x /\
    _invalid x' = _invalid x /\
    only_caches w w' /\
    (forall r y, r <> this -> caches w !! r = Some y ->
       exists y', caches w' !! r = Some y' /\
                  (y' = y \/ y' = set_isCompleted true y)).
Proof.
  intros Hx. unfold bake_frame.
  rewrite (bind_Done _ _ _ _ _ (getCache_Some _ _ _ Hx)).
  unfold bind at 1. unfold putCache at 1.
  unfold bind at 1. unfold dispatch.
  match goal with
  | |- context [fold_left (fire_complete ?info) ?es
                  (set_caches (<[this := ?x1v]> (caches w)) w)] =>
      pose (x1 := x1v);
      pose (w1 := set_caches (<[this := x1]> (caches w)) w);
      change (set_caches (<[this := x1v]> (caches w)) w) with w1;
      set (wd := fold_left (fire_complete info) es w1);
      assert (Hkept : forall r y, caches w1 !! r = Some y ->
                exists y', caches wd !! r = Some y' /\
                           (y' = y \/ y' = set_isCompleted true y))
        by (intros r y Hy; apply (dispatch_kept info es w1 r y Hy));
      assert (Hoc : only_caches w1 wd) by apply dispatch_only_caches
  end.
  destruct (Hkept this x1) as (y' & Hy' & Hor); [apply lookup_insert_eq|].
  rewrite (bind_Done _ _ _ _ _ (getCache_Some _ _ _ Hy')).
  unfold putCache. eexists _, _. split; [reflexivity|].
  split; [apply lookup_insert_eq|].
  split; [destruct Hor as [->| ->]; now destruct (_ <=? _)|].
  split; [destruct Hor as [->| ->]; now destruct (_ <=? _)|].
  split.
  { destruct Hoc as (A1 & A2 & A3 & A4). repeat split; assumption. }
  intros r y Hr Hy.
  destruct (Hkept r y) as (z & Hz & Hzor).
  { subst w1. cbn [caches set_caches]. rewrite lookup_insert_ne by congruence.
    exact Hy. }
  exists z. split; [|exact Hzor].
  cbn [caches set_caches]. rewrite lookup_insert_ne by congruence. exact Hz.
Qed.

Lemma bake_loop_effect this target (n : nat) :
  forall w w' x,
    caches w !! this = Some x ->
    bake_loop n this target w = Done tt w' ->
    exists x',
      caches w' !! this = Some x' /\
      _inited x' = _inited x /\
      _invalid x' = _invalid x /\
      only_caches w w' /\
      (forall r y, r <> this -> caches w !! r = Some y ->
         exists y', caches w' !! r = Some y' /\
                    (y' = y \/ y' = set_isCompleted true y)).
Proof.
  induction n as [|n IH]; intros w w' x Hx Hloop; [discriminate Hloop|].
  cbn [bake_loop] in Hloop.
  destruct (bake_frame_effect this w x Hx)
    as (w1 & x1 & Hbf & Hx1 & Hin1 & Hinv1 & Hoc1 & Hoth1).
  rewrite (bind_Done _ _ _ _ _ Hbf) in Hloop.
  rewrite (bind_Done _ _ _ _ _ (getCache_Some _ _ _ Hx1)) in Hloop.
  destruct (needToUpdate x1 target).
  - destruct (IH w1 w' x1 Hx1 Hloop)
      as (x' & Hx' & Hin' & Hinv' & Hoc' & Hoth').
    exists x'. split; [exact Hx'|].
    split; [congruence|]. split; [congruence|].
    split; [eapply only_caches_trans; eassumption|].
    intros r y Hr Hy.
    destruct (Hoth1 r y Hr Hy) as (y1 & Hy1 & Hor1).
    destruct (Hoth' r y1 Hr Hy1) as (y2 & Hy2 & Hor2).
    exists y2. split; [exact Hy2|].
    destruct Hor1 as [->| ->]; destruct Hor2 as [->| ->]; auto.
  - injection Hloop as <-. exists x1. repeat split; try assumption;
      try (now destruct Hoc1 as (A1 & A2 & A3 & A4)).
Qed.

Lemma updateToFrame_unfold depth this target w x :
  caches w !! this = Some x ->
  _inited x = true ->
  _invalid x = false ->
  updateToFrame (S depth) this target w =
  if needToUpdate x target then bake_loop (ticks_left x) this target w
  else Done tt w.
Proof.
  intros Hx Hin Hinv. cbn [updateToFrame].
  rewrite (bind_Done _ _ _ _ _ (getCache_Some _ _ _ Hx)).
  rewrite Hin. cbn [negb].
  rewrite (bind_Done _ _ _ _ _ (begin_with_valid _ _ _ _ Hx Hinv)).
  rewrite (bind_Done _ _ _ _ _ (getCache_Some _ _ _ Hx)).
  now destruct (needToUpdate x target).
Qed.

Lemma needToUpdate_below_cap x target :
  needToUpdate x target = true -> (totalTime x < MaxCacheTime)%Q.
Proof.
  unfold needToUpdate. intros H.
  apply andb_true_iff in H. destruct H as [H _].
  apply andb_true_iff in H. destruct H as [_ H].
  now apply Qlt_bool_iff.
Qed.

Lemma updateToFrame_effect depth this target w x :
  caches w !! this = Some x ->
  _invalid x = false ->
  exists w' x',
    updateToFrame (S depth) this target w = Done tt w' /\
    caches w' !! this = Some x' /\
    _inited x' = _inited x /\
    _invalid x' = false /\
    only_caches w w' /\
    (forall r y, r <> this -> caches w !! r = Some y ->
       exists y', caches w' !! r = Some y' /\
                  (y' = y \/ y' = set_isCompleted true y)).
Proof.
  intros Hx Hinv.
  assert (Hstay : updateToFrame (S depth) this target w = Done tt w ->
    exists w' x',
      updateToFrame (S depth) this target w = Done tt w' /\
      caches w' !! this = Some x' /\
      _inited x' = _inited x /\
      _invalid x' = false /\
      only_caches w w' /\
      (forall r y, r <> this -> caches w !! r = Some y ->
         exists y', caches w' !! r = Some y' /\
                    (y' = y \/ y' = set_isCompleted true y))).
  { intros E. exists w, x. split; [exact E|]. split; [exact Hx|].
    split; [reflexivity|]. split; [exact Hinv|].
    split; [apply only_caches_refl|]. intros r y _ Hy. eauto. }
  destruct (_inited x) eqn:Hin.
  2:{ apply Hstay. apply (updateToFrame_idle _ _ _ _ x Hx). now left. }
  destruct (needToUpdate x target) eqn:Hneed.
  2:{ apply Hstay. apply (updateToFrame_idle _ _ _ _ x Hx). now right. }
  pose proof (needToUpdate_below_cap _ _ Hneed) as Hlt.
  destruct (bake_loop_any this target (ticks_left x) w x Hx
              (ticks_left_enough x Hlt) (ticks_left_pos x Hlt))
    as (w' & x0 & k & Hloop & _).
  destruct (bake_loop_effect this target _ w w' x Hx Hloop)
    as (x' & Hx' & Hin' & Hinv' & Hoc & Hoth).
  exists w', x'. split.
  { rewrite (updateToFrame_unfold _ _ _ _ x Hx Hin Hinv), Hneed.
    exact Hloop. }
  split; [exact Hx'|]. split; [congruence|]. split; [congruence|].
  split; assumption.
Qed.

(** X16.  Baking a recorder whose bake has begun never touches what
    another recorder has baked: on any engine, [updateToFrame] returns, and
    every other recorder of the store is as before, except that the
    engine's completion callback may have marked it completed.  The
    contexts, the warnings and the destroyed recorders are unchanged. *)
Theorem X16_baking_leaves_other_recorders depth this target w x :
  caches w !! this = Some x ->
  _invalid x = false ->
  exists w',
    updateToFrame (S depth) this target w = Done tt w' /\
    infos w' = infos w /\
    warnings w' = warnings w /\
    destroyed w' = destroyed w /\
    instances w' = instances w /\
    (forall r y, r <> this -> caches w !! r = Some y ->
       exists y', caches w' !! r = Some y' /\
                  (y' = y \/ y' = set_isCompleted true y)).
Proof.
  intros Hx Hinv.
  destruct (updateToFrame_effect depth this target w x Hx Hinv)
    as (w' & x' & Hu & _ & _ & _ & (A1 & A2 & A3 & A4) & Hoth).
  exists w'. repeat split; assumption.
Qed.

(** ** Baking in several calls *)

Lemma needToUpdate_mono x t1 t2 :
  target_le t1 t2 -> needToUpdate x t1 = true -> needToUpdate x t2 = true.
Proof.
  unfold needToUpdate, target_le. intros Hle H.
  apply andb_true_iff in H. destruct H as [-> H]. cbn [andb].
  destruct t2 as [b|]; [|reflexivity].
  destruct t1 as [a|]; [|contradiction].
  apply Z.ltb_lt in H. apply Z.ltb_lt. lia.
Qed.

Lemma bake_loop_compose this t1 t2 :
  target_le t1 t2 ->
  forall (n : nat) w w1,
    bake_loop n this t1 w = Done tt w1 ->
    forall (N : nat) w2,
      (let* x := getCache this in
       if needToUpdate x t2 then bake_loop N this t2 else ret tt) w1 =
        Done tt w2 ->
      bake_loop (n + N) this t2 w = Done tt w2.
Proof.
  intros Hle. induction n as [|n IH]; intros w w1 Hloop N w2 Hnext;
    [discriminate Hloop|].
  cbn [bake_loop] in Hloop. cbn [Nat.add bake_loop].
  destruct (bake_frame this w) as [[] w'|e| |] eqn:Hbf;
    try (unfold bind at 1 in Hloop; rewrite Hbf in Hloop; discriminate Hloop).
  rewrite (bind_Done _ _ _ _ _ Hbf) in Hloop.
  rewrite (bind_Done _ _ _ _ _ Hbf).
  destruct (caches w' !! this) as [x1|] eqn:Hx1.
  2:{ unfold bind, getCache in Hloop. rewrite Hx1 in Hloop.
      discriminate Hloop. }
  rewrite (bind_Done _ _ _ _ _ (getCache_Some _ _ _ Hx1)) in Hloop.
  rewrite (bind_Done _ _ _ _ _ (getCache_Some _ _ _ Hx1)).
  destruct (needToUpdate x1 t1) eqn:H1.
  - rewrite (needToUpdate_mono _ _ _ Hle H1).
    apply (IH w' w1 Hloop N w2 Hnext).
  - injection Hloop as <-.
    rewrite (bind_Done _ _ _ _ _ (getCache_Some _ _ _ Hx1)) in Hnext.
    destruct (needToUpdate x1 t2); [|exact Hnext].
    apply (bake_loop_mono this t2 N (n + N)%nat w' w2 Hnext). lia.
Qed.

(** X17.  Baking may be done in several calls: for a recorder whose bake
    has begun, on any engine, [updateToFrame] to a target and then to a
    later target (or to the end) returns and leaves the store exactly as
    one call with the later target does.  With twice the same target: a
    second call changes nothing that the first has not done. *)
Theorem X17_updateToFrame_in_steps depth this t1 t2 w x :
  caches w !! this = Some x ->
  _invalid x = false ->
  target_le t1 t2 ->
  exists w1 w2,
    updateToFrame (S depth) this t1 w = Done tt w1 /\
    updateToFrame (S depth) this t2 w1 = Done tt w2 /\
    updateToFrame (S depth) this t2 w = Done tt w2.
Proof.
  intros Hx Hinv Hle.
  destruct (updateToFrame_effect depth this t1 w x Hx Hinv)
    as (w1 & x1 & Hu1 & Hx1 & Hin1 & Hinv1 & _).
  destruct (updateToFrame_effect depth this t2 w1 x1 Hx1 Hinv1)
    as (w2 & x2 & Hu2 & _).
  exists w1, w2. split; [exact Hu1|]. split; [exact Hu2|].
  destruct (_inited x) eqn:Hin.
  2:{ rewrite (updateToFrame_idle _ _ _ _ x Hx) in Hu1 by now left.
      injection Hu1 as <-. exact Hu2. }
  destruct (needToUpdate x t1) eqn:Hn1.
  2:{ rewrite (updateToFrame_idle _ _ _ _ x Hx) in Hu1 by now right.
      injection Hu1 as <-. exact Hu2. }
  rewrite (updateToFrame_unfold _ _ _ _ x Hx Hin Hinv), Hn1 in Hu1.
  rewrite (updateToFrame_unfold _ _ _ _ x1 Hx1 Hin1 Hinv1) in Hu2.
  assert (Hnext :
    (let* y := getCache this in
     if needToUpdate y t2 then bake_loop (ticks_left x1) this t2 else ret tt)
      w1 = Done tt w2).
  { rewrite (bind_Done _ _ _ _ _ (getCache_Some _ _ _ Hx1)).
    destruct (needToUpdate x1 t2); exact Hu2. }
  pose proof (bake_loop_compose this t1 t2 Hle _ w w1 Hu1 _ w2 Hnext) as Hbig.
  pose proof (needToUpdate_mono _ _ _ Hle Hn1) as Hn2.
  rewrite (updateToFrame_unfold _ _ _ _ x Hx Hin Hinv), Hn2.
  pose proof (needToUpdate_below_cap _ _ Hn2) as Hlt.
  destruct (bake_loop_any this t2 (ticks_left x) w x Hx
              (ticks_left_enough x Hlt) (ticks_left_pos x Hlt))
    as (w2' & x0 & k & Hl & _).
  assert (Hm : bake_loop (ticks_left x + ticks_left x1) this t2 w =
               Done tt w2')
    by (apply (bake_loop_mono this t2 _ _ w w2' Hl); lia).
  rewrite Hbig in Hm. injection Hm as ->. exact Hl.
Qed.

(** ** The frames of a full bake *)

Lemma arr_get_set_eq {A} (arr : JSArray A) (i : Z) (v : A) :
  0 <= i -> arr_get (arr_set arr i v) (Some i) = Some v.
Proof.
  intros Hi. unfold arr_get, arr_set, JSArray in *.
  destruct (i <? 0) eqn:Hneg; [apply Z.ltb_lt in Hneg; lia|].
  cbv zeta.
  destruct (Nat.ltb_spec (Z.to_nat i) (length arr)) as [Hlt|Hge].
  - now rewrite list_lookup_insert_eq.
  - rewrite lookup_app_r by exact Hge.
    rewrite lookup_app_r by (rewrite length_replicate; lia).
    rewrite length_replicate, Nat.sub_diag. reflexivity.
Qed.

Lemma arr_get_set_ne {A} (arr : JSArray A) (i j : Z) (v : A) :
  0 <= i -> 0 <= j -> i <> j ->
  arr_get (arr_set arr i v) (Some j) = arr_get arr (Some j).
Proof.
  intros Hi Hj Hne. unfold arr_get, arr_set, JSArray in *.
  destruct (i <? 0) eqn:Hneg; [apply Z.ltb_lt in Hneg; lia|].
  destruct (j <? 0) eqn:Hnegj; [reflexivity|].
  cbv zeta.
  destruct (Nat.ltb_spec (Z.to_nat i) (length arr)) as [Hlt|Hge].
  - rewrite list_lookup_insert_ne by lia. reflexivity.
  - destruct (Nat.lt_ge_cases (Z.to_nat j) (length arr)) as [Hin|Hout].
    + now rewrite lookup_app_l.
    + rewrite (lookup_ge_None_2 arr) by exact Hout.
      destruct ((arr ++ replicate (Z.to_nat i - length arr) None ++ [Some v])
                  !! Z.to_nat j) as [[v'|]|] eqn:E; try reflexivity.
      exfalso. apply lookup_app_Some in E.
      destruct E as [E|[_ E]].
      * apply lookup_lt_Some in E. lia.
      * apply lookup_app_Some in E. destruct E as [E|[Hlen E]].
        -- apply lookup_replicate in E. now destruct E.
        -- rewrite length_replicate in Hlen, E.
           apply lookup_lt_Some in E. cbn in E. lia.
Qed.

Lemma hole_free_bake_step x :
  -1 <= _frameIdx x /\ hole_free x ->
  -1 <= _frameIdx (bake_step x) /\ hole_free (bake_step x).
Proof.
  intros [Hf Hh]. rewrite bake_step_frameIdx. split; [lia|].
  unfold hole_free. rewrite bake_step_frameIdx.
  destruct (bake_step_frames x) as [v ->].
  intros j Hj.
  destruct (decide (j = _frameIdx x + 1)) as [->|Hne].
  - rewrite arr_get_set_eq by lia. eauto.
  - rewrite arr_get_set_ne by lia. apply Hh. lia.
Qed.

Lemma bake_loop_quiet_inv (P : AnimationCache -> Prop) this target :
  quiet ->
  (forall y, P y -> P (bake_step y)) ->
  forall (n : nat) w w' x,
    caches w !! this = Some x ->
    P x ->
    bake_loop n this target w = Done tt w' ->
    exists x', caches w' !! this = Some x' /\ P x'.
Proof.
  intros Hq Hstep. induction n as [|n IH]; intros w w' x Hx HP Hloop;
    [discriminate Hloop|].
  cbn [bake_loop] in Hloop.
  rewrite (bind_Done _ _ _ _ _ (bake_frame_quiet _ _ _ Hq Hx)) in Hloop.
  assert (Hx1 : caches (set_caches (<[this := bake_step x]> (caches w)) w)
                  !! this = Some (bake_step x))
    by (cbn [caches set_caches]; apply lookup_insert_eq).
  rewrite (bind_Done _ _ _ _ _ (getCache_Some _ _ _ Hx1)) in Hloop.
  destruct (needToUpdate (bake_step x) target).
  - apply (IH _ w' (bake_step x) Hx1 (Hstep _ HP) Hloop).
  - injection Hloop as <-. exists (bake_step x). split; [exact Hx1|].
    now apply Hstep.
Qed.

(** X18.  A recorder that has been baked to the end without reaching the
    time cap serves every frame index: on a quiet engine, after a full
    [updateToFrame], and still after [end], [getFrame] has a frame for
    every index [k >= 0], and [end] does not change which frame that is. *)
Theorem X18_full_bake_serves_every_index depth this target w x i inf n :
  quiet ->
  caches w !! this = Some x ->
  _inited x = true ->
  _invalid x = true ->
  _skeletonInfo x = Some i ->
  infos w !! i = Some inf ->
  prev_ready w this x inf ->
  _animationName x = Some n ->
  1 <= _maxFrameIdex x ->
  to_the_end x target ->
  (inject_Z (_maxFrameIdex x) * FrameTime < MaxCacheTime)%Q ->
  exists w1 x1 w2 x2,
    updateToFrame (S (S depth)) this target w = Done tt w1 /\
    caches w1 !! this = Some x1 /\
    end_ this w1 = Done tt w2 /\
    caches w2 !! this = Some x2 /\
    (forall k, 0 <= k ->
       is_Some (getFrame x1 k) /\ getFrame x2 k = getFrame x1 k).
Proof.
  intros Hq Hx Hini Hinv Hi Hinf Hprev Hn Hmax Hend Hcap.
  apply (proj1 (ticks_below_cap _)) in Hcap.
  destruct (updateToFrame_full depth this target w x i inf n)
    as (w1 & x1 & Hrun & Hx1 & Hinf1 & Hf1 & Ht1 & Hc1 & Hm1 & Hi1);
    try assumption; [lia|].
  destruct (updateToFrame_begins depth this target w x i inf n)
    as (w0 & Hrun0 & Hx0 & _); try assumption.
  { apply needToUpdate_begun; [lia|exact Hend]. }
  rewrite Hrun0 in Hrun.
  destruct (bake_loop_quiet_inv
              (fun y => -1 <= _frameIdx y /\ hole_free y) this target Hq
              hole_free_bake_step 1800%nat w0 w1 (begun n x) Hx0)
    as (x1' & Hx1' & Hge & Hhf); [|exact Hrun|].
  { split; [cbn; lia|]. intros j Hj. cbn in Hj. lia. }
  rewrite Hx1 in Hx1'. injection Hx1' as <-.
  unfold full_bake_length in *.
  assert (Hfi : _frameIdx x1 = _maxFrameIdex x) by lia.
  assert (Hneed : needToUpdate x1 None = false).
  { apply needToUpdate_completed. rewrite Hc1. apply Z.leb_le. lia. }
  eexists w1, x1, _, _. split; [rewrite Hrun0; exact Hrun|].
  split; [exact Hx1|]. split.
  { eapply end_done; try eassumption. }
  split; [cbn [caches infos set_caches set_infos]; apply lookup_insert_eq|].
  intros k Hk. unfold getFrame.
  cbn [frames _maxFrameIdex set_isCompleted set_frames].
  rewrite Hm1. unfold js_rem.
  destruct (_maxFrameIdex x =? 0) eqn:E; [apply Z.eqb_eq in E; lia|].
  pose proof (Z.rem_bound_pos k (_maxFrameIdex x) Hk ltac:(lia)) as [Hr0 Hr1].
  split.
  - apply Hhf. lia.
  - rewrite arr_get_set_length by exact Hr0.
    destruct (Nat.ltb_spec (Z.to_nat (Z.rem k (_maxFrameIdex x)))
                (Z.to_nat (_frameIdx x1 + 1))); [reflexivity|lia].
Qed.

(** ** [begin] *)

(** X19.  [begin] on an invalid recorder makes it the active recorder of
    its context and the receiver of the context's completion callback, and
    restarts it: frame index -1, elapsed time 0, not completed, no longer
    invalid.  The frames of the earlier bake are not dropped and the
    context keeps its recorders.  A second [begin] changes nothing. *)
Theorem X19_begin_once depth this w x i inf n :
  quiet ->
  caches w !! this = Some x ->
  _invalid x = true ->
  _skeletonInfo x = Some i ->
  infos w !! i = Some inf ->
  prev_ready w this x inf ->
  _animationName x = Some n ->
  exists w' x' inf',
    begin (S depth) this w = Done tt w' /\
    caches w' !! this = Some x' /\
    infos w' !! i = Some inf' /\
    curAnimationCache inf' = Some this /\
    listener inf' = Some this /\
    animationsCache inf' = animationsCache inf /\
    _invalid x' = false /\
    _frameIdx x' = -1 /\
    isCompleted x' = false /\
    totalTime x' = 0%Q /\
    frames x' = frames x /\
    _maxFrameIdex x' = _maxFrameIdex x /\
    begin (S depth) this w' = Done tt w'.
Proof.
  intros Hq Hx Hinv Hi Hinf Hprev Hn.
  destruct (begin_with_ready depth this w x i inf n Hq Hx Hinv Hi Hinf
              Hprev Hn) as (w' & Hb & Hx' & Hinf').
  exists w', (begun n x),
    (set_curAnimationCache (Some this) (set_listener (Some this) inf)).
  split; [exact Hb|]. split; [exact Hx'|]. split; [exact Hinf'|].
  do 9 (split; [reflexivity|]).
  unfold begin. now apply (begin_with_valid _ _ _ (begun n x)).
Qed.

(** ** The completion callback *)

Lemma fire_complete_own i inf this n e w y :
  infos w !! i = Some inf ->
  listener inf = Some this ->
  caches w !! this = Some y ->
  _animationName y = Some n ->
  exists y',
    caches (fire_complete (Some i) w e) !! this = Some y' /\
    infos (fire_complete (Some i) w e) = infos w /\
    _animationName y' = Some n /\
    (y' = y \/ y' = set_isCompleted true y) /\
    (e = Some n \/ isCompleted y = true -> isCompleted y' = true).
Proof.
  intros Hinf Hl Hy Hn. unfold fire_complete, completeHandle.
  rewrite Hinf, Hl, Hy.
  destruct e as [m|].
  - destruct (decide (Some m = _animationName y)) as [E|Hne].
    + exists (set_isCompleted true y).
      split; [cbn [caches set_caches]; apply lookup_insert_eq|].
      split; [reflexivity|]. split; [exact Hn|]. split; [now right|].
      reflexivity.
    + exists y. split; [exact Hy|]. split; [reflexivity|].
      split; [exact Hn|]. split; [now left|].
      intros [E|E]; [|exact E]. exfalso. apply Hne. congruence.
  - exists y. split; [exact Hy|]. split; [reflexivity|].
    split; [exact Hn|]. split; [now left|].
    intros [E|E]; [discriminate E|exact E].
Qed.

Lemma dispatch_own i inf this n es :
  forall w y,
    infos w !! i = Some inf ->
    listener inf = Some this ->
    caches w !! this = Some y ->
    _animationName y = Some n ->
    exists y',
      caches (fold_left (fire_complete (Some i)) es w) !! this = Some y' /\
      (y' = y \/ y' = set_isCompleted true y) /\
      (Some n ∈ es \/ isCompleted y = true -> isCompleted y' = true).
Proof.
  induction es as [|e es IH]; intros w y Hinf Hl Hy Hn.
  - exists y. split; [exact Hy|]. split; [now left|].
    intros [E|E]; [inversion E|exact E].
  - cbn [fold_left].
    destruct (fire_complete_own i inf this n e w y Hinf Hl Hy Hn)
      as (y1 & Hy1 & Hinf1 & Hn1 & Hor1 & Hc1).
    destruct (IH (fire_complete (Some i) w e) y1) as (y2 & Hy2 & Hor2 & Hc2);
      try assumption; [now rewrite Hinf1|].
    exists y2. split; [exact Hy2|]. split.
    + destruct Hor1 as [->| ->]; destruct Hor2 as [->| ->]; auto.
    + intros H. apply Hc2.
      destruct H as [H|H].
      * apply elem_of_cons in H. destruct H as [<-|H]; [|now left].
        right. apply Hc1. now left.
      * right. apply Hc1. now right.
Qed.

Lemma bake_frame_own this w x i inf n :
  caches w !! this = Some x ->
  _skeletonInfo x = Some i ->
  infos w !! i = Some inf ->
  listener inf = Some this ->
  _animationName x = Some n ->
  Some n ∈ snd (inst_updateAnimation (_instance x) FrameTime) ->
  exists w' x' v,
    bake_frame this w = Done tt w' /\
    caches w' !! this = Some x' /\
    isCompleted x' = true /\
    _frameIdx x' = _frameIdx x + 1 /\
    frames x' = arr_set (frames x) (_frameIdx x + 1) v.
Proof.
  intros Hx Hi Hinf Hl Hn Hev. unfold bake_frame.
  rewrite (bind_Done _ _ _ _ _ (getCache_Some _ _ _ Hx)).
  unfold bind at 1. unfold putCache at 1.
  unfold bind at 1. unfold dispatch.
  cbn [_skeletonInfo _instance set_totalTime set_frameIdx].
  rewrite Hi.
  match goal with
  | |- context [fold_left (fire_complete (Some i)) ?es
                  (set_caches (<[this := ?x1v]> (caches w)) w)] =>
      destruct (dispatch_own i inf this n es
                  (set_caches (<[this := x1v]> (caches w)) w) x1v)
        as (y' & Hy' & Hor & Hc);
        [exact Hinf|exact Hl|apply lookup_insert_eq|exact Hn|]
  end.
  assert (Hc' : isCompleted y' = true) by (apply Hc; left; exact Hev).
  assert (Hfr : frames y' = frames x /\ _frameIdx y' = _frameIdx x + 1)
    by (destruct Hor as [->| ->]; split; reflexivity).
  destruct Hfr as [Hfr Hfi].
  rewrite (bind_Done _ _ _ _ _ (getCache_Some _ _ _ Hy')).
  unfold putCache.
  assert (Hif : forall (b : bool) z,
            isCompleted z = true ->
            isCompleted (if b then set_isCompleted true z else z) = true /\
            _frameIdx (if b then set_isCompleted true z else z) = _frameIdx z /\
            frames (if b then set_isCompleted true z else z) = frames z)
    by (intros [] z Hz; repeat split; exact Hz).
  eexists _, _, _. split; [reflexivity|].
  split; [apply lookup_insert_eq|].
  match goal with
  | |- isCompleted (if ?b then set_isCompleted true ?z else ?z) = true /\ _ =>
      destruct (Hif b z) as (-> & -> & ->); [exact Hc'|]
  end.
  split; [reflexivity|].
  unfold updateRenderData.
  cbn [_frameIdx frames set_frames set_instance].
  rewrite Hfr, Hfi. split; reflexivity.
Qed.

(** X20.  The completion callback ends a bake early.  Let the recorder be
    the receiver of its context's callback (as it is after [begin]) and
    still to be updated.  If the engine reports, during the next step, the
    completion of the recorder's own animation, then [updateToFrame],
    whatever its target, bakes that one frame, marks the recorder completed
    and stops, also when [_maxFrameIdex] has not been reached. *)
Theorem X20_completion_callback_stops_bake depth this target w x i inf n :
  caches w !! this = Some x ->
  _inited x = true ->
  _invalid x = false ->
  needToUpdate x target = true ->
  _skeletonInfo x = Some i ->
  infos w !! i = Some inf ->
  listener inf = Some this ->
  _animationName x = Some n ->
  Some n ∈ snd (inst_updateAnimation (_instance x) FrameTime) ->
  exists w' x' v,
    updateToFrame (S depth) this target w = Done tt w' /\
    caches w' !! this = Some x' /\
    isCompleted x' = true /\
    _frameIdx x' = _frameIdx x + 1 /\
    frames x' = arr_set (frames x) (_frameIdx x + 1) v.
Proof.
  intros Hx Hin Hinv Hneed Hi Hinf Hl Hn Hev.
  destruct (bake_frame_own this w x i inf n Hx Hi Hinf Hl Hn Hev)
    as (w' & x' & v & Hbf & Hx' & Hc & Hf & Hfr).
  exists w', x', v. split; [|repeat split; assumption].
  rewrite (updateToFrame_unfold _ _ _ _ x Hx Hin Hinv), Hneed.
  pose proof (ticks_left_pos x (needToUpdate_below_cap _ _ Hneed)) as Hpos.
  destruct (ticks_left x) as [|k]; [lia|].
  cbn [bake_loop].
  rewrite (bind_Done _ _ _ _ _ Hbf).
  rewrite (bind_Done _ _ _ _ _ (getCache_Some _ _ _ Hx')).
  now rewrite (needToUpdate_completed _ _ Hc).
Qed.

(** ** Removing a skeleton and destroying its cached animations *)

Lemma fold_pool_Some uuid (l : list (string * cref))
    (pool : gmap string cref) (key : string) (r : cref) :
  fold_left (fun p kv => <[poolKey uuid kv.1 := kv.2]> p) l pool !! key =
    Some r ->
  r ∈ l.*2 \/ pool !! key = Some r.
Proof.
  revert pool. induction l as [|[k0 r0] l IH]; intros pool H; [now right|].
  cbn [fold_left fst snd] in H. apply IH in H.
  destruct H as [H|H]; [left; cbn; now right|].
  destruct (decide (poolKey uuid k0 = key)) as [<-|Hne].
  - rewrite lookup_insert_eq in H. injection H as <-. left. cbn. left.
  - rewrite lookup_insert_ne in H by exact Hne. now right.
Qed.

(** X21.  [removeSkeleton] followed by [destroyCachedAnimations] of the
    same, non-empty, uuid releases everything the skeleton had: both
    return, every recorder of the removed context has been destroyed, the
    pool has no recorder left for any animation of that uuid, and the
    registry has no context for it. *)
Theorem X21_remove_then_destroy sc uuid w i inf :
  uuid <> ""%string ->
  _skeletonCache sc !! uuid = Some i ->
  infos w !! i = Some inf ->
  all_stored (animationsCache inf) w ->
  all_stored (_animationPool sc) w ->
  exists sc1 w1 sc2 w2,
    removeSkeleton sc uuid w = Done sc1 w1 /\
    destroyCachedAnimations sc1 (Some uuid) w1 = Done sc2 w2 /\
    (forall k r, animationsCache inf !! k = Some r -> r ∈ destroyed w2) /\
    (forall a, getAnimationCache sc2 uuid a = None) /\
    _skeletonCache sc2 !! uuid = None.
Proof.
  intros Hu Hsc Hinf Hall Hpool.
  set (l := map_to_list (animationsCache inf)).
  set (pool1 := fold_left (fun p kv => <[poolKey uuid kv.1 := kv.2]> p) l
                  (_animationPool sc)).
  set (cs1 := fold_left (fun m kv => alter cleared kv.2 m) l (caches w)).
  set (sc1 := set_skeletonCache (delete uuid (_skeletonCache sc))
                (set_animationPool pool1 sc)).
  assert (Hrm : removeSkeleton sc uuid w = Done sc1 (set_caches cs1 w))
    by (apply (removeSkeleton_spec sc uuid w i inf Hsc Hinf Hall)).
  assert (Hcs : forall r, is_Some (caches w !! r) -> is_Some (cs1 !! r)).
  { intros r [y Hy]. subst cs1. rewrite fold_alter_lookup, Hy.
    destruct (decide _); cbn; eauto. }
  assert (Hall1 : all_stored (_animationPool sc1) (set_caches cs1 w)).
  { intros key r Hkey. cbn [caches set_caches]. apply Hcs.
    cbn [_animationPool sc1 set_skeletonCache set_animationPool] in Hkey.
    apply fold_pool_Some in Hkey. destruct Hkey as [Hin|Hold].
    - apply elem_of_values in Hin. destruct Hin as [k Hk].
      apply (Hall k r Hk).
    - apply (Hpool key r Hold). }
  pose proof (destroyCachedAnimations_spec sc1 (Some uuid) (set_caches cs1 w)
                (fun key => includes key uuid) Hall1) as Hd.
  cbv beta in Hd.
  eexists sc1, _, _, _. split; [exact Hrm|].
  split; [apply Hd; destruct uuid; [congruence|reflexivity]|].
  cbn [_animationPool _skeletonCache set_animationPool set_skeletonCache sc1
       destroyed set_destroyed set_caches].
  split.
  { intros k r Hk.
    pose proof (fold_destroyed_elem (fun key => includes key uuid)
                  (map_to_list pool1) (destroyed w) r) as H.
    cbv beta in H. apply H. right. exists (poolKey uuid k).
    split; [|apply includes_poolKey].
    apply elem_of_map_to_list. apply fold_pool_lookup.
    - apply NoDup_fst_map_to_list.
    - now apply elem_of_map_to_list. }
  split.
  { intros a. unfold getAnimationCache.
    cbn [_animationPool set_animationPool].
    pose proof (fold_delete_lookup (fun key => includes key uuid)
                  (map_to_list pool1) pool1 (poolKey uuid a)) as H.
    cbv beta in H. rewrite H, includes_poolKey. clear H.
    destruct (decide _) as [_|Hn]; [reflexivity|].
    destruct (pool1 !! poolKey uuid a) as [r|] eqn:E; [|reflexivity].
    exfalso. apply Hn. split; [reflexivity|]. apply elem_of_keys. eauto. }
  apply lookup_delete_eq.
Qed.

End More.

(** ** The further statements on the scenarios *)


Lemma X3_witness :
  exists w' x',
    initAnimationCache (hero_registry false) "hero" hero_asset "walk"
      (walking_world false) = Done (Some 0%nat, hero_registry false) w' /\
    caches w' !! 0%nat = Some x' /\
    _frameIdx x' = 5 /\
    instances w' = instances (walking_world false).
Proof.
  edestruct (X3_initAnimationCache_again (engine := book_engine)
               (hero_registry false) "hero" hero_asset hero_data "walk"
               (walking_world false) 0%nat)
    as (w' & x' & H1 & H2 & _ & H4 & _ & _ & H7 & _).
  - reflexivity.
  - vm_compute; reflexivity.
  - vm_compute; reflexivity.
  - vm_compute; reflexivity.
  - vm_compute; reflexivity.
  - exists w', x'. repeat split; assumption.
Defined.


Lemma X5_witness :
  exists sc' w' x',
    initAnimationCache (enablePrivateMode (hero_registry false)) "hero"
      hero_asset "walk" (hero_world false) = Done (Some 0%nat, sc') w' /\
    sc_privateMode sc' = true /\
    caches w' !! 0%nat = Some x' /\
    _privateMode x' = false.
Proof.
  edestruct (X5_enablePrivateMode_not_retroactive (engine := book_engine)
               (hero_registry false) "hero" hero_asset hero_data "walk"
               (hero_world false) 0%nat hero_info 0%nat
               (recorder "walk" 60 false))
    as (sc' & w' & x' & _ & H2 & H3 & H4 & H5).
  - reflexivity.
  - vm_compute; reflexivity.
  - vm_compute; reflexivity.
  - left. vm_compute; reflexivity.
  - vm_compute; reflexivity.
  - exists sc', w', x'. repeat split; assumption.
Defined.

Lemma X6_witness :
  exists sc' w',
    removeSkeleton (hero_registry false) "hero" (walking_world false) =
      Done sc' w' /\
    _skeletonCache sc' !! "hero"%string = None /\
    _animationPool sc' !! poolKey "hero" "run" = Some 1%nat /\
    destroyed w' = destroyed (walking_world false).
Proof.
  edestruct (X6_removeSkeleton_moves_to_pool (engine := book_engine)
               (hero_registry false) "hero" (walking_world false) 0%nat)
    as (sc' & w' & H1 & H2 & _ & H4 & _ & _ & _ & _ & H9 & _).
  - vm_compute; reflexivity.
  - vm_compute; reflexivity.
  - stored_by_cases.
  - exists sc', w'. split; [exact H1|]. split; [exact H2|].
    split; [|exact H9]. apply H4. vm_compute; reflexivity.
Defined.

Lemma X7_witness :
  exists w',
    invalidAnimationCache (hero_registry false) "hero" (walking_world false) =
      Done tt w' /\
    infos w' = infos (walking_world false).
Proof.
  destruct (X7_invalidAnimationCache_marks_all (engine := book_engine)
              (hero_registry false) "hero" (walking_world false))
    as (w' & H1 & H2 & _).
  - intros i H. vm_compute in H. injection H as <-.
    eexists. split; [vm_compute; reflexivity|].
    stored_by_cases.
  - exists w'. split; assumption.
Defined.

Lemma X8_witness :
  exists sc' w',
    destroyCachedAnimations pool_registry (Some ""%string) pool_world =
      Done sc' w' /\
    _animationPool sc' = ∅.
Proof.
  destruct (X8_destroyCachedAnimations_all (engine := book_engine)
              pool_registry (Some ""%string) pool_world)
    as (sc' & w' & H1 & H2 & _).
  - now right.
  - stored_by_cases.
  - exists sc', w'. split; assumption.
Defined.

Lemma X9_witness :
  exists sc' w',
    destroyCachedAnimations pool_registry (Some "hero2"%string) pool_world =
      Done sc' w' /\
    getAnimationCache sc' "hero2" "walk" = None /\
    caches w' = caches pool_world.
Proof.
  destruct (X9_destroyCachedAnimations_uuid (engine := book_engine)
              pool_registry "hero2" pool_world)
    as (sc' & w' & H1 & _ & H3 & _ & H5 & _).
  - discriminate.
  - stored_by_cases.
  - exists sc', w'. split; [exact H1|]. split; [apply H3|exact H5].
Defined.

Lemma X10_witness :
  exists w' x',
    end_ 2 capped_world = Done tt w' /\
    caches w' !! 2%nat = Some x' /\
    isCompleted x' = true /\
    Z.of_nat (length (frames x')) = 1800.
Proof.
  destruct (X10_end_when_finished (engine := book_engine) 2%nat capped_world
              capped_recorder 0%nat hero_info)
    as (w' & H1 & _ & H3).
  - reflexivity.
  - reflexivity.
  - reflexivity.
  - simpl. lia.
  - destruct H3 as (x' & inf' & Hx & _ & Hc & Hlen & _); [reflexivity|].
    exists w', x'. repeat split; assumption.
Defined.

Lemma X11_witness :
  exists w1 x1,
    invalidAnimationFrames 1 run_baked_world = Done tt w1 /\
    caches w1 !! 1%nat = Some x1 /\
    getFrame x1 0 = None /\
    updateToFrame 2 1 None w1 = Done tt w1.
Proof.
  edestruct (X11_invalidAnimationFrames_no_rebake (engine := book_engine)
               1%nat run_baked_world)
    as (w1 & x1 & H1 & H2 & _ & _ & _ & H6 & H7).
  - vm_compute; reflexivity.
  - reflexivity.
  - reflexivity.
  - exists w1, x1. split; [exact H1|]. split; [exact H2|].
    split; [apply H6|apply (H7 1%nat)].
Defined.

Lemma X12_witness :
  exists w1 x1,
    enableCacheAttachedInfo 0 (walking_world false) = Done tt w1 /\
    caches w1 !! 0%nat = Some x1 /\
    _invalid x1 = true /\
    enableCacheAttachedInfo 0 w1 = Done tt w1.
Proof.
  edestruct (X12_enableCacheAttachedInfo_once (engine := book_engine)
               0%nat (walking_world false))
    as (w1 & x1 & H1 & H2 & _ & _ & _ & H6 & _ & H8).
  - vm_compute; reflexivity.
  - exists w1, x1. split; [exact H1|]. split; [exact H2|].
    split; [|exact H8]. apply H6. reflexivity.
Defined.

Lemma X13_witness :
  exists w1,
    clear 0 (walking_world false) = Done tt w1 /\
    updateToFrame 2 0 None w1 = Done tt w1.
Proof.
  edestruct (X13_cleared_recorder_is_idle (engine := book_engine)
               0%nat (walking_world false))
    as (w1 & H1 & _ & _ & _ & _ & H6).
  - vm_compute; reflexivity.
  - exists w1. split; [exact H1|apply (H6 1%nat)].
Defined.

Lemma X15_witness :
  "hero"%string = "hero"%string /\ "walk"%string = "walk"%string.
Proof.
  apply (X15_poolKey_injective "hero" "walk" "hero" "walk"); reflexivity.
Defined.

Lemma X16_witness :
  exists w' y',
    updateToFrame 2 0 (Some 10) (walking_world false) = Done tt w' /\
    infos w' = infos (walking_world false) /\
    caches w' !! 1%nat = Some y' /\
    frames y' = [].
Proof.
  edestruct (X16_baking_leaves_other_recorders (engine := book_engine)
               1 0%nat (Some 10) (walking_world false))
    as (w' & H1 & H2 & _ & _ & _ & H6).
  - vm_compute; reflexivity.
  - reflexivity.
  - destruct (H6 1%nat (recorder "run" 30 false)) as (y' & Hy & Hor);
      [discriminate|vm_compute; reflexivity|].
    exists w', y'. split; [exact H1|]. split; [exact H2|].
    split; [exact Hy|]. destruct Hor as [->| ->]; reflexivity.
Defined.

Lemma X17_witness :
  exists w1 w2,
    updateToFrame 2 0 (Some 10) (walking_world false) = Done tt w1 /\
    updateToFrame 2 0 None w1 = Done tt w2 /\
    updateToFrame 2 0 None (walking_world false) = Done tt w2.
Proof.
  edestruct (X17_updateToFrame_in_steps (engine := book_engine)
               1 0%nat (Some 10) None (walking_world false))
    as (w1 & w2 & H).
  - vm_compute; reflexivity.
  - reflexivity.
  - exact I.
  - exists w1, w2. exact H.
Defined.

Lemma X18_witness :
  exists w1 x1 w2 x2,
    updateToFrame 2 1 None (walking_world false) = Done tt w1 /\
    caches w1 !! 1%nat = Some x1 /\
    end_ 1 w1 = Done tt w2 /\
    caches w2 !! 1%nat = Some x2 /\
    is_Some (getFrame x1 100) /\
    getFrame x2 100 = getFrame x1 100.
Proof.
  destruct (X18_full_bake_serves_every_index (engine := book_engine)
              0 1%nat None (walking_world false) (recorder "run" 30 false)
              0%nat
              (set_curAnimationCache (Some 0%nat)
                 (set_listener (Some 0%nat) hero_info))
              "run")
    as (w1 & x1 & w2 & x2 & H1 & H2 & H3 & H4 & H5).
  - exact book_engine_quiet.
  - vm_compute; reflexivity.
  - reflexivity.
  - reflexivity.
  - reflexivity.
  - vm_compute; reflexivity.
  - right. eexists. split; [vm_compute; reflexivity|].
    right. split; [reflexivity|simpl; lia].
  - reflexivity.
  - simpl. lia.
  - exact I.
  - reflexivity.
  - exists w1, x1, w2, x2. do 4 (split; [assumption|]).
    apply H5. lia.
Defined.

Lemma X19_witness :
  exists w' x',
    begin 1 1 (walking_world false) = Done tt w' /\
    caches w' !! 1%nat = Some x' /\
    _invalid x' = false /\
    begin 1 1 w' = Done tt w'.
Proof.
  destruct (X19_begin_once (engine := book_engine)
              0 1%nat (walking_world false) (recorder "run" 30 false)
              0%nat
              (set_curAnimationCache (Some 0%nat)
                 (set_listener (Some 0%nat) hero_info))
              "run")
    as (w' & x' & inf' & H1 & H2 & _ & _ & _ & _ & H7 & _ & _ & _ & _ & _ & H13).
  - exact book_engine_quiet.
  - vm_compute; reflexivity.
  - reflexivity.
  - reflexivity.
  - vm_compute; reflexivity.
  - right. eexists. split; [vm_compute; reflexivity|].
    right. split; [reflexivity|simpl; lia].
  - reflexivity.
  - exists w', x'. repeat split; assumption.
Defined.

Lemma X20_witness :
  exists w' x',
    updateToFrame (engine := eager_engine) 1 0 None eager_world =
      Done tt w' /\
    caches w' !! 0%nat = Some x' /\
    isCompleted x' = true /\
    _frameIdx x' = 0 /\
    _maxFrameIdex x' = 60.
Proof.
  edestruct (X20_completion_callback_stops_bake (engine := eager_engine)
               0 0%nat None eager_world)
    as (w' & x' & v & H1 & H2 & H3 & H4 & _).
  - vm_compute; reflexivity.
  - reflexivity.
  - reflexivity.
  - reflexivity.
  - reflexivity.
  - vm_compute; reflexivity.
  - reflexivity.
  - reflexivity.
  - left.
  - exists w', x'. split; [exact H1|]. split; [exact H2|].
    split; [exact H3|]. split; [exact H4|].
    pose proof H1 as E. vm_compute in E. injection E as <-.
    vm_compute in H2. injection H2 as <-. reflexivity.
Defined.

Lemma X21_witness :
  exists sc1 w1 sc2 w2,
    removeSkeleton (hero_registry false) "hero" (walking_world false) =
      Done sc1 w1 /\
    destroyCachedAnimations sc1 (Some "hero"%string) w1 = Done sc2 w2 /\
    0%nat ∈ destroyed w2 /\
    getAnimationCache sc2 "hero" "walk" = None.
Proof.
  edestruct (X21_remove_then_destroy (engine := book_engine)
               (hero_registry false) "hero" (walking_world false) 0%nat)
    as (sc1 & w1 & sc2 & w2 & H1 & H2 & H3 & H4 & _).
  - discriminate.
  - vm_compute; reflexivity.
  - vm_compute; reflexivity.
  - stored_by_cases.
  - intros k r H. cbn [_animationPool hero_registry] in H.
    rewrite lookup_empty in H. discriminate H.
  - exists sc1, w1, sc2, w2. split; [exact H1|]. split; [exact H2|].
    split; [|apply H4]. apply (H3 "walk"%string). vm_compute; reflexivity.
Defined.
